(** * EmbCalc: the embroidery price calculator of [src/js/embcalc-modern.js]

    A shallow embedding of the class [EmbroideryCalculator] and of the part of
    the JavaScript runtime its methods call, followed by the properties of the
    settings store, the admission policy and the pricing computation.

    - [Num]: JavaScript Numbers as IEEE-754 binary64 values, through the
      Standard Library's executable [SpecFloat] (no primitive floats, no
      axioms).
    - [Str], [Value], [Json]: strings, [parseFloat], [parseInt],
      [Number::toString], the values [JSON.parse] produces, [ToString] on
      them, [JSON.parse] and [JSON.stringify].
    - [Calc]: the methods of the class, with [this.settings], the
      [localStorage] entry and the user-interface effects as explicit state. *)

From Stdlib Require Import ZArith List String Ascii Bool.
From Stdlib Require Import Floats.SpecFloat.
Import ListNotations.

Set Warnings "-register-all".


(* ================================================================= *)
(** ** Numbers *)

Module Num.

(** A JavaScript Number is a binary64 value: 53 bits of precision,
    exponent of the infinities 1024.  [S754_zero true] is [-0]. *)
Definition number : Type := spec_float.

Definition prec : Z := 53.
Definition emax : Z := 1024.

Definition NaN : number := S754_nan.
Definition pos_zero : number := S754_zero false.
Definition Infinity : number := S754_infinity false.

Definition add (x y : number) : number := SFadd prec emax x y.
Definition mul (x y : number) : number := SFmul prec emax x y.
Definition div (x y : number) : number := SFdiv prec emax x y.

(** [x < y], [x > y], [x <= y] of the language: false as soon as one side
    is [NaN]. *)
Definition lt (x y : number) : bool := SFltb x y.
Definition gt (x y : number) : bool := SFltb y x.
Definition le (x y : number) : bool := SFleb x y.

Definition isNaN (x : number) : bool :=
  match x with S754_nan => true | _ => false end.

Definition is_zero (x : number) : bool :=
  match x with S754_zero _ => true | _ => false end.

Definition is_finite (x : number) : bool :=
  match x with S754_zero _ | S754_finite _ _ _ => true | _ => false end.

(** ToBoolean on a Number: [NaN], [+0] and [-0] are falsy. *)
Definition truthy (x : number) : bool := negb (isNaN x || is_zero x).

(** [x || d] where both sides are Numbers. *)
Definition or_else (x d : number) : number := if truthy x then x else d.

(** The Number nearest to the integer [z] (ties to even). *)
Definition of_Z (z : Z) : number := binary_normalize prec emax z 0 false.

(** The Number nearest to [m * 10^e], for a natural [m], with the sign
    [neg]; a zero keeps the sign.  A negative exponent is a correctly
    rounded division of two exact integers. *)
Definition of_decimal (neg : bool) (m : Z) (e : Z) : number :=
  match m with
  | Zpos p =>
      match e with
      | Zneg q => SFdiv prec emax (S754_finite neg p 0)
                                  (S754_finite false (Pos.pow 10 q) 0)
      | _ => binary_normalize prec emax (if neg then Z.neg (p * Z.to_pos (10 ^ e)) else Z.pos (p * Z.to_pos (10 ^ e))) 0 false
      end
  | _ => S754_zero neg
  end.

(** [Number.MAX_VALUE]. *)
Definition MAX_VALUE : number := SFmax_float prec emax.

End Num.

(* ================================================================= *)
(** ** Strings and the numeric literals read from them *)

Module Str.
Import Num.
Local Open Scope string_scope.
Local Open Scope Z_scope.

(** A string is a sequence of code units; an [ascii] is a code unit below
    256.  The only facts the calculator observes of a code unit are whether
    it is white space, a sign, a digit, a dot, an exponent mark or a letter
    of [Infinity]. *)

(** StrWhiteSpaceChar below 256: TAB, LF, VT, FF, CR, SP and NBSP. *)
Definition is_space (c : ascii) : bool :=
  match N_of_ascii c with
  | 9%N | 10%N | 11%N | 12%N | 13%N | 32%N | 160%N => true
  | _ => false
  end.

Definition is_digit (c : ascii) : bool :=
  let n := N_of_ascii c in (48 <=? n)%N && (n <=? 57)%N.

Definition digit_val (c : ascii) : Z := Z.of_N (N_of_ascii c) - 48.

Fixpoint trim_start (s : string) : string :=
  match s with
  | String c r => if is_space c then trim_start r else s
  | EmptyString => EmptyString
  end.

(** The longest prefix of decimal digits, and what follows it. *)
Fixpoint take_digits (s : string) : string * string :=
  match s with
  | String c r =>
      if is_digit c
      then let (d, t) := take_digits r in (String c d, t)
      else (EmptyString, s)
  | EmptyString => (EmptyString, EmptyString)
  end.

Fixpoint digits_value (acc : Z) (d : string) : Z :=
  match d with
  | String c r => digits_value (10 * acc + digit_val c) r
  | EmptyString => acc
  end.

Definition is_empty (s : string) : bool :=
  match s with EmptyString => true | _ => false end.

(** Whether [s] starts with the characters of [a]. *)
Fixpoint starts_with (a s : string) : bool :=
  match a with
  | EmptyString => true
  | String c a' =>
      match s with
      | String d s' => Ascii.eqb d c && starts_with a' s'
      | EmptyString => false
      end
  end.

(** An optional sign: [true] for a minus. *)
Definition take_sign (s : string) : bool * string :=
  match s with
  | String c r =>
      if Ascii.eqb c "-" then (true, r)
      else if Ascii.eqb c "+" then (false, r)
      else (false, s)
  | EmptyString => (false, s)
  end.

(** The ExponentPart that may follow the digits: [e] or [E], an optional
    sign and at least one digit; anything else is not part of the literal. *)
Definition take_exponent (s : string) : Z :=
  match s with
  | String c r =>
      if Ascii.eqb c "e" || Ascii.eqb c "E" then
        let (eneg, r1) := take_sign r in
        let (ed, _) := take_digits r1 in
        if is_empty ed then 0
        else if eneg then - digits_value 0 ed else digits_value 0 ed
      else 0
  | EmptyString => 0
  end.

(** The longest prefix of [s] that is digits, an optional dot and digits,
    and an optional exponent, as a Number of sign [neg]; [NaN] when there
    is no digit before the exponent. *)
Definition decimal_literal (neg : bool) (s : string) : number :=
  let (ip, s3) := take_digits s in
  let (fp, s4) :=
    match s3 with
    | String c r => if Ascii.eqb c "." then take_digits r else (EmptyString, s3)
    | EmptyString => (EmptyString, s3)
    end in
  if is_empty ip && is_empty fp then NaN
  else of_decimal neg (digits_value 0 (ip ++ fp))
                  (take_exponent s4 - Z.of_nat (length fp)).

(** [parseFloat] on a string: leading white space is dropped, then the
    longest prefix that is a StrDecimalLiteral is read and what follows it
    is ignored; [NaN] when there is no such prefix. *)
Definition parseFloat_str (s : string) : number :=
  let (neg, s2) := take_sign (trim_start s) in
  if starts_with "Infinity" s2 then S754_infinity neg
  else decimal_literal neg s2.

(** Digits of a radix up to 16, for [parseInt]. *)
Definition hex_val (c : ascii) : option Z :=
  let n := Z.of_N (N_of_ascii c) in
  if (48 <=? n) && (n <=? 57) then Some (n - 48)
  else if (97 <=? n) && (n <=? 102) then Some (n - 87)
  else if (65 <=? n) && (n <=? 70) then Some (n - 55)
  else None.

(** Value of the longest prefix of digits of radix [R]; [None] when the
    prefix is empty. *)
Fixpoint radix_value (R : Z) (acc : option Z) (s : string) : option Z :=
  match s with
  | String c r =>
      match hex_val c with
      | Some v =>
          if v <? R
          then radix_value R (Some (R * match acc with Some a => a | None => 0 end + v)) r
          else acc
      | None => acc
      end
  | EmptyString => acc
  end.

(** [parseInt] on a string, no radix given: white space, sign, an optional
    [0x] or [0X] that selects radix 16, then the longest prefix of digits. *)
Definition parseInt_str (s : string) : number :=
  let (neg, s2) := take_sign (trim_start s) in
  let (R, s3) :=
    match s2 with
    | String "0" (String ("x" | "X") r) => (16, r)
    | _ => (10, s2)
    end in
  match radix_value R None s3 with
  | None => NaN
  | Some 0 => S754_zero neg
  | Some v => of_Z (if neg then - v else v)
  end.

(** *** Number::toString *)

(** The positive rational [m * 2^e] as a fraction. *)
Definition frac_of (m : positive) (e : Z) : Z * Z :=
  match e with
  | Zneg q => (Zpos m, Zpos (Pos.pow 2 q))
  | _ => (Zpos m * 2 ^ e, 1)
  end.

(** The fraction [a/b] scaled by [10^j]. *)
Definition scale10 (ab : Z * Z) (j : Z) : Z * Z :=
  let (a, b) := ab in
  match j with
  | Zneg q => (a, b * Zpos (Pos.pow 10 q))
  | _ => (a * 10 ^ j, b)
  end.

(** A lower bound of the decimal magnitude of [m * 2^e], from the binary
    one: [log10 2] is a little more than [0.30102]. *)
Definition magnitude10_from (m : positive) (e : Z) : Z :=
  (Zpos (digits2_pos m) + e - 1) * 30102 / 100000 - 1.

(** The least [n], searched upwards from [n], with [a/b < 10^n]. *)
Fixpoint magnitude10 (fuel : nat) (ab : Z * Z) (n : Z) : Z :=
  match fuel with
  | O => n
  | S f =>
      let (a, b) := scale10 ab (- n) in
      if a <? b then n else magnitude10 f ab (n + 1)
  end.

Fixpoint strip_zeros (fuel : nat) (c e : Z) : Z * Z :=
  match fuel with
  | O => (c, e)
  | S f => if (c mod 10 =? 0) && negb (c =? 0)
           then strip_zeros f (c / 10) (e + 1) else (c, e)
  end.

(** The shortest decimal [c * 10^e] that reads back as [x = m * 2^ex]:
    with [k] digits, [k] from [k0] upwards, the two neighbours of [x] are
    tried; of two that read back as [x] the closer one, the even one on a
    tie. *)
Fixpoint shortest (fuel : nat) (x : number) (ab : Z * Z) (n k : Z) : option (Z * Z) :=
  match fuel with
  | O => None
  | S f =>
      let (a, b) := scale10 ab (k - n) in
      let lo := a / b in
      let r := a mod b in
      let hi := lo + 1 in
      let ok c := match of_decimal false c (n - k), x with
                  | S754_finite _ m1 e1, S754_finite _ m2 e2 =>
                      Pos.eqb m1 m2 && Z.eqb e1 e2
                  | _, _ => false
                  end in
      match ok lo, ok hi with
      | true, true =>
          match Z.compare (2 * r) b with
          | Lt => Some (lo, n - k)
          | Gt => Some (hi, n - k)
          | Eq => Some (if Z.even lo then lo else hi, n - k)
          end
      | true, false => Some (lo, n - k)
      | false, true => Some (hi, n - k)
      | false, false => shortest f x ab n (k + 1)
      end
  end.

Definition digit_char (d : Z) : ascii := ascii_of_N (Z.to_N (48 + d)).

(** Decimal digits of a natural number, most significant first. *)
Fixpoint digits_of (fuel : nat) (z : Z) (acc : string) : string :=
  match fuel with
  | O => acc
  | S f =>
      let acc' := String (digit_char (z mod 10)) acc in
      if z <? 10 then acc' else digits_of f (z / 10) acc'
  end.

Definition Z_to_string (z : Z) : string :=
  digits_of (S (Z.to_nat (Z.log2 z))) z EmptyString.

Fixpoint zeros (n : nat) : string :=
  match n with O => EmptyString | S m => String "0" (zeros m) end.

(** The four layouts of Number::toString for the digits [ds] (there are
    [k] of them) and the decimal point position [n]. *)
Definition layout (ds : string) (n : Z) : string :=
  let k := Z.of_nat (length ds) in
  if (k <=? n) && (n <=? 21) then ds ++ zeros (Z.to_nat (n - k))
  else if (0 <? n) && (n <=? 21)
  then substring 0 (Z.to_nat n) ds ++ "." ++ substring (Z.to_nat n) (Z.to_nat (k - n)) ds
  else if (-6 <? n) && (n <=? 0)
  then "0." ++ zeros (Z.to_nat (- n)) ++ ds
  else
    let ex := (if n - 1 <? 0 then "-" else "+") ++ Z_to_string (Z.abs (n - 1)) in
    match ds with
    | String d EmptyString => String d ("e" ++ ex)
    | String d r => String d ("." ++ r ++ "e" ++ ex)
    | EmptyString => EmptyString
    end.

(** Number::toString, radix 10. *)
Definition Number_toString (x : number) : string :=
  match x with
  | S754_nan => "NaN"
  | S754_zero _ => "0"
  | S754_infinity s => if s then "-Infinity" else "Infinity"
  | S754_finite s m e =>
      let ab := frac_of m e in
      let n := magnitude10 8 ab (magnitude10_from m e) in
      let (c, ce) :=
        match shortest 17 (S754_finite false m e) ab n 1 with
        | Some (c, ce) => strip_zeros 400 c ce
        | None => (fst (scale10 ab (17 - n)) / snd (scale10 ab (17 - n)), n - 17)
        end in
      let ds := Z_to_string c in
      (if s then "-" else EmptyString) ++ layout ds (Z.of_nat (length ds) + ce)
  end.

End Str.

(* ================================================================= *)
(** ** Values, exceptions and ToString *)

Module Value.
Import Num Str.
Local Open Scope string_scope.

(** What a call can throw. *)
Inductive error : Type :=
| TypeError
| SyntaxError
| StorageError.

(** A computation that returns normally or throws. *)
Inductive result (A : Type) : Type :=
| Ok (a : A)
| Throw (e : error).
Arguments Ok {A} a.
Arguments Throw {A} e.

Definition bind {A B : Type} (r : result A) (k : A -> result B) : result B :=
  match r with
  | Ok a => k a
  | Throw e => Throw e
  end.

Declare Scope result_scope.
Delimit Scope result_scope with result.
Notation "x <- r ;; k" := (bind r (fun x => k))
  (at level 61, r at next level, right associativity) : result_scope.

(** The values the calculator handles: [undefined] and what [JSON.parse]
    can return.  An object is its own properties in source order; arrays
    and objects are the plain ones of [JSON.parse], so no property of
    theirs is callable. *)
Inductive jsval : Type :=
| VUndefined
| VNull
| VBool (b : bool)
| VNum (x : number)
| VStr (s : string)
| VArr (items : list jsval)
| VObj (props : list (string * jsval)).

(** Own property [key], the last definition winning. *)
Fixpoint own_property (key : string) (props : list (string * jsval)) : option jsval :=
  match props with
  | [] => None
  | (k, v) :: rest =>
      match own_property key rest with
      | Some w => Some w
      | None => if String.eqb k key then Some v else None
      end
  end.

(** [v.key] for a [key] that no prototype defines: a TypeError on [null]
    and [undefined], the own property of an object, [undefined] elsewhere. *)
Definition get (v : jsval) (key : string) : result jsval :=
  match v with
  | VUndefined | VNull => Throw TypeError
  | VObj props =>
      Ok match own_property key props with Some w => w | None => VUndefined end
  | _ => Ok VUndefined
  end.

(** ToString.  On a plain object OrdinaryToPrimitive tries [toString] then
    [valueOf]: the inherited [toString] answers [[object Object]]; an own
    property [toString] is not callable and the inherited or own [valueOf]
    gives no primitive, hence a TypeError.  On an array
    [Array.prototype.join] is used: [null] and [undefined] items are empty,
    the others are converted in turn. *)
Fixpoint ToString (v : jsval) : result string :=
  match v with
  | VUndefined => Ok "undefined"
  | VNull => Ok "null"
  | VBool b => Ok (if b then "true" else "false")
  | VNum x => Ok (Number_toString x)
  | VStr s => Ok s
  | VArr items =>
      (fix join (first : bool) (l : list jsval) {struct l} : result string :=
         match l with
         | [] => Ok EmptyString
         | item :: rest =>
             match (match item with
                    | VUndefined | VNull => Ok EmptyString
                    | _ => ToString item
                    end) with
             | Throw e => Throw e
             | Ok piece =>
                 match join false rest with
                 | Throw e => Throw e
                 | Ok more => Ok ((if first then EmptyString else ",") ++ piece ++ more)
                 end
             end
         end) true items
  | VObj props =>
      match own_property "toString" props with
      | Some _ => Throw TypeError
      | None => Ok "[object Object]"
      end
  end.

(** The global [parseFloat]: its argument is converted to a string first. *)
Definition parseFloat (v : jsval) : result number :=
  bind (ToString v) (fun s => Ok (parseFloat_str s)).

(** The global [parseInt], no radix. *)
Definition parseInt (v : jsval) : result number :=
  bind (ToString v) (fun s => Ok (parseInt_str s)).

End Value.

(* ================================================================= *)
(** ** JSON *)

Module Json.
Import Num Str Value.
Local Open Scope string_scope.
Local Open Scope Z_scope.

Definition code (c : ascii) : Z := Z.of_N (N_of_ascii c).

(** The double quote and the backslash, by code. *)
Definition dquote : ascii := ascii_of_N 34.
Definition backslash : ascii := ascii_of_N 92.

(** JSON white space: TAB, LF, CR and SP. *)
Definition json_space (c : ascii) : bool :=
  match N_of_ascii c with
  | 9%N | 10%N | 13%N | 32%N => true
  | _ => false
  end.

Fixpoint skip_ws (s : string) : string :=
  match s with
  | String c r => if json_space c then skip_ws r else s
  | EmptyString => EmptyString
  end.

(** The code unit written [\uXXXX].  Above 255 only its class is kept,
    which is all [parseFloat] and the comparison of property names can
    observe: a white space of StrWhiteSpaceChar becomes NBSP, any other
    code unit becomes the inert code unit 255. *)
Definition unit_of_code (n : Z) : ascii :=
  if n <? 256 then ascii_of_N (Z.to_N n)
  else if (n =? 5760) || ((8192 <=? n) && (n <=? 8202)) || (n =? 8232)
          || (n =? 8233) || (n =? 8239) || (n =? 8287) || (n =? 12288)
          || (n =? 65279)
  then ascii_of_N 160
  else ascii_of_N 255.

Definition hex4 (a b c d : ascii) : option Z :=
  match hex_val a, hex_val b, hex_val c, hex_val d with
  | Some x, Some y, Some z, Some w => Some (((x * 16 + y) * 16 + z) * 16 + w)
  | _, _, _, _ => None
  end.

(** The characters of a string literal after its opening quote, up to the
    closing quote; the text that follows. *)
Fixpoint string_body (s : string) : option (string * string) :=
  match s with
  | EmptyString => None
  | String c r =>
      if Ascii.eqb c dquote then Some (EmptyString, r)
      else if Ascii.eqb c backslash then
        match r with
        | String e r2 =>
            let simple (u : Z) :=
              match string_body r2 with
              | Some (t, rest) => Some (String (ascii_of_N (Z.to_N u)) t, rest)
              | None => None
              end in
            if Ascii.eqb e dquote then simple 34
            else if Ascii.eqb e backslash then simple 92
            else
              match e with
              | "/"%char => simple 47
              | "b"%char => simple 8
              | "f"%char => simple 12
              | "n"%char => simple 10
              | "r"%char => simple 13
              | "t"%char => simple 9
              | "u"%char =>
                  match r2 with
                  | String h1 (String h2 (String h3 (String h4 r3))) =>
                      match hex4 h1 h2 h3 h4, string_body r3 with
                      | Some n, Some (t, rest) => Some (String (unit_of_code n) t, rest)
                      | _, _ => None
                      end
                  | _ => None
                  end
              | _ => None
              end
        | EmptyString => None
        end
      else if code c <? 32 then None
      else
        match string_body r with
        | Some (t, rest) => Some (String c t, rest)
        | None => None
        end
  end.

(** A JSON number: [-]? int frac? exp?, where int has no leading zero
    unless it is [0], and frac and exp have at least one digit. *)
Definition number_token (s : string) : option (number * string) :=
  let (neg, s1) := match s with
                   | String "-" r => (true, r)
                   | _ => (false, s)
                   end in
  let (ip, s2) := take_digits s1 in
  match ip with
  | EmptyString => None
  | String "0" (String _ _) => None
  | _ =>
      let frac :=
        match s2 with
        | String "." r =>
            let (fp, s3) := take_digits r in
            if is_empty fp then None else Some (fp, s3)
        | _ => Some (EmptyString, s2)
        end in
      match frac with
      | None => None
      | Some (fp, s3) =>
          let ex :=
            match s3 with
            | String ("e" | "E") r =>
                let (eneg, r1) := take_sign r in
                let (ed, s4) := take_digits r1 in
                if is_empty ed then None
                else Some (if eneg then - digits_value 0 ed else digits_value 0 ed, s4)
            | _ => Some (0, s3)
            end in
          match ex with
          | None => None
          | Some (e, s4) =>
              Some (of_decimal neg (digits_value 0 (ip ++ fp)) (e - Z.of_nat (length fp)), s4)
          end
      end
  end.

Definition drop (n : nat) (s : string) : string := substring n (length s - n) s.

(** A JSON value at the head of [s] (white space already skipped), and the
    text that follows it.  [fuel] bounds the nesting and the number of
    items, the length of the text is enough. *)
Fixpoint parse_value (fuel : nat) (s : string) : option (jsval * string) :=
  match fuel with
  | O => None
  | S f =>
      match s with
      | EmptyString => None
      | String c r =>
          if Ascii.eqb c dquote then
            match string_body r with
            | Some (t, rest) => Some (VStr t, rest)
            | None => None
            end
          else
            match c with
            | "n"%char => if starts_with "ull" r then Some (VNull, drop 3 r) else None
            | "t"%char => if starts_with "rue" r then Some (VBool true, drop 3 r) else None
            | "f"%char => if starts_with "alse" r then Some (VBool false, drop 4 r) else None
            | "["%char =>
                match skip_ws r with
                | String "]" rest => Some (VArr [], rest)
                | r1 =>
                    match parse_items f r1 with
                    | Some (l, rest) => Some (VArr l, rest)
                    | None => None
                    end
                end
            | "{"%char =>
                match skip_ws r with
                | String "}" rest => Some (VObj [], rest)
                | r1 =>
                    match parse_members f r1 with
                    | Some (l, rest) => Some (VObj l, rest)
                    | None => None
                    end
                end
            | _ =>
                match number_token s with
                | Some (x, rest) => Some (VNum x, rest)
                | None => None
                end
            end
      end
  end

(** The items of an array, the first one at the head of [s], up to the
    closing bracket. *)
with parse_items (fuel : nat) (s : string) : option (list jsval * string) :=
  match fuel with
  | O => None
  | S f =>
      match parse_value f s with
      | None => None
      | Some (v, r) =>
          match skip_ws r with
          | String "]" rest => Some ([v], rest)
          | String "," r1 =>
              match parse_items f (skip_ws r1) with
              | Some (l, rest) => Some (v :: l, rest)
              | None => None
              end
          | _ => None
          end
      end
  end

(** The members of an object, the first name at the head of [s], up to the
    closing brace. *)
with parse_members (fuel : nat) (s : string) : option (list (string * jsval) * string) :=
  match fuel with
  | O => None
  | S f =>
      match s with
      | String c r =>
          if Ascii.eqb c dquote then
            match string_body r with
            | None => None
            | Some (k, r1) =>
                match skip_ws r1 with
                | String ":" r2 =>
                    match parse_value f (skip_ws r2) with
                    | None => None
                    | Some (v, r3) =>
                        match skip_ws r3 with
                        | String "}" rest => Some ([(k, v)], rest)
                        | String "," r4 =>
                            match parse_members f (skip_ws r4) with
                            | Some (l, rest) => Some ((k, v) :: l, rest)
                            | None => None
                            end
                        | _ => None
                        end
                    end
                | _ => None
                end
            end
          else None
      | EmptyString => None
      end
  end.

(** [JSON.parse]: one value between optional white space, a SyntaxError
    otherwise. *)
Definition JSON_parse (text : string) : result jsval :=
  match parse_value (2 * length text + 2) (skip_ws text) with
  | Some (v, rest) => if is_empty (skip_ws rest) then Ok v else Throw SyntaxError
  | None => Throw SyntaxError
  end.

(** [JSON.stringify] on a Number: [null] unless it is finite. *)
Definition stringify_number (x : number) : string :=
  if is_finite x then Number_toString x else "null".

Definition quoted (name : string) : string :=
  String dquote (name ++ String dquote EmptyString).

(** [JSON.stringify] on an object whose properties are Numbers, in the
    order they were created. *)
Fixpoint stringify_members (first : bool) (l : list (string * number)) : string :=
  match l with
  | [] => EmptyString
  | (k, x) :: rest =>
      (if first then EmptyString else ",") ++ quoted k ++ ":" ++ stringify_number x
        ++ stringify_members false rest
  end.

Definition JSON_stringify (l : list (string * number)) : string :=
  "{" ++ stringify_members true l ++ "}".

End Json.

(* ================================================================= *)
(** ** The class [EmbroideryCalculator] *)

Module Calc.
Import Num Str Value Json.
Local Open Scope string_scope.
Local Open Scope result_scope.

(** The numeric literals of the source, as the Numbers they denote. *)
Definition lit_0 : number := Eval vm_compute in of_decimal false 0 0.
Definition lit_1 : number := Eval vm_compute in of_decimal false 1 0.
Definition lit_10 : number := Eval vm_compute in of_decimal false 10 0.
Definition lit_50 : number := Eval vm_compute in of_decimal false 50 0.
Definition lit_100 : number := Eval vm_compute in of_decimal false 100 0.
Definition lit_1000 : number := Eval vm_compute in of_decimal false 1000 0.
Definition lit_0_50 : number := Eval vm_compute in of_decimal false 50 (-2).
Definition lit_1_00 : number := Eval vm_compute in of_decimal false 100 (-2).
Definition lit_0_10 : number := Eval vm_compute in of_decimal false 10 (-2).

(** [this.settings]. *)
Record Settings : Type := {
  stitchRate : number;     (* per 1000 stitches *)
  appliqueRate : number;   (* per applique *)
  insuranceRate : number   (* fraction of the blank cost *)
}.

(** The settings the constructor starts from. *)
Definition default_settings : Settings :=
  {| stitchRate := lit_0_50; appliqueRate := lit_1_00; insuranceRate := lit_0_10 |}.

(** [localStorage], reduced to the entry ['embcalc-settings'].  Access can
    be denied altogether, and a write can exceed the quota; both throw. *)
Record Storage : Type := {
  entry : option string;
  access_denied : bool;
  quota_exceeded : bool
}.

Definition getItem (sto : Storage) : result (option string) :=
  if access_denied sto then Throw StorageError else Ok (entry sto).

Definition setItem (sto : Storage) (text : string) : result Storage :=
  if access_denied sto || quota_exceeded sto then Throw StorageError
  else Ok {| entry := Some text;
             access_denied := access_denied sto;
             quota_exceeded := quota_exceeded sto |}.

(** The data collected from the order form. *)
Record OrderInput : Type := {
  stitches : number;
  items : number;
  appliques : number;
  blankCost : number;
  designCost : number
}.

(** The result of [performCalculations]. *)
Record PriceBreakdown : Type := {
  stitchCost : number;
  appliqueCost : number;
  blankCostOut : number;
  insuranceCost : number;
  designCostOut : number;
  perItemCost : number;
  totalCost : number
}.

(** What the methods do to the console and to the page, in order. *)
Inductive Event : Type :=
| ConsoleWarn (msg : string)
| ConsoleError (msg : string)
| ShowError (msg : string)
| ShowSuccess (msg : string)
| ClearInputError (field : string)
| ShowInputError (field msg : string)
| ShowLoading (show : bool)
| DisplayResults (results : PriceBreakdown) (formData : OrderInput)
| ShowResults (show : bool)
| CloseSettingsModal.

Record State : Type := {
  settings : Settings;
  storage : Storage;
  ui : list Event
}.

Definition emit (evs : list Event) (st : State) : State :=
  {| settings := settings st; storage := storage st; ui := (ui st ++ evs)%list |}.

Definition with_settings (s : Settings) (st : State) : State :=
  {| settings := s; storage := storage st; ui := ui st |}.

Definition with_storage (sto : Storage) (st : State) : State :=
  {| settings := settings st; storage := sto; ui := ui st |}.

(** [JSON.stringify(this.settings)]: the three properties in the order of
    the object literal. *)
Definition settings_members (s : Settings) : list (string * number) :=
  [("stitchRate", stitchRate s);
   ("appliqueRate", appliqueRate s);
   ("insuranceRate", insuranceRate s)].

(** [validateNumber(value, defaultValue, min, max)].  Every call of the
    source passes the four arguments. *)
Definition validateNumber (v : jsval) (defaultValue min max : number) : result number :=
  num <- parseFloat v ;;
  Ok (if isNaN num || lt num min || gt num max then defaultValue else num).

(** [saveSettings()]. *)
Definition saveSettings (st : State) : State :=
  match setItem (storage st) (JSON_stringify (settings_members (settings st))) with
  | Ok sto => with_storage sto st
  | Throw _ =>
      emit [ConsoleError "Failed to save settings:";
            ShowError "Settings could not be saved. Please check your browser settings."] st
  end.

(** The [try] block of [loadSettings()]. *)
Definition loadSettings_try (st : State) : result State :=
  savedSettings <- getItem (storage st) ;;
  match savedSettings with
  | None => Ok st
  | Some text =>
      if is_empty text then Ok st
      else
        parsed <- JSON_parse text ;;
        p1 <- get parsed "stitchRate" ;;
        r1 <- validateNumber p1 lit_0_50 lit_0 lit_10 ;;
        p2 <- get parsed "appliqueRate" ;;
        r2 <- validateNumber p2 lit_1_00 lit_0 lit_50 ;;
        p3 <- get parsed "insuranceRate" ;;
        r3 <- validateNumber p3 lit_0_10 lit_0 lit_1 ;;
        Ok (with_settings {| stitchRate := r1; appliqueRate := r2; insuranceRate := r3 |} st)
  end.

(** [loadSettings()]: the [catch] warns and saves the settings in place. *)
Definition loadSettings (st : State) : State :=
  match loadSettings_try st with
  | Ok st' => st'
  | Throw _ =>
      saveSettings (emit [ConsoleWarn "Failed to load settings from localStorage:"] st)
  end.

(** The constructor: the default settings, then [loadSettings()].  The
    listeners it installs and the settings form it fills touch the page
    only. *)
Definition constructor (sto : Storage) : State :=
  loadSettings {| settings := default_settings; storage := sto; ui := [] |}.

(** An [<input type="number">] of the order form: the properties
    [validateInput] reads. *)
Record Input : Type := {
  name : string;
  value : string;
  required : bool;
  min : string;
  max : string
}.

(** [validateInput(input)]: its answer and what it shows. *)
Definition validateInput (input : Input) : bool * list Event :=
  let v := parseFloat_str (value input) in
  let cleared := [ClearInputError (name input)] in
  if is_empty (value input) && negb (required input) then (true, cleared)
  else if required input && (is_empty (value input) || isNaN v)
  then (false, (cleared ++ [ShowInputError (name input) "This field is required"])%list)
  else
    let lo := or_else (parseFloat_str (min input)) lit_0 in
    let hi := or_else (parseFloat_str (max input)) MAX_VALUE in
    if negb (isNaN v) && (lt v lo || gt v hi)
    then (false, (cleared ++ [ShowInputError (name input)
                                ("Value must be between " ++ Number_toString lo
                                   ++ " and " ++ Number_toString hi)%string])%list)
    else (true, cleared).

(** The order form: the inputs [querySelectorAll('input[type="number"]')]
    returns and the entries of its [FormData]. *)
Record Form : Type := {
  number_inputs : list Input;
  entries : list (string * string)
}.

(** [formData.get(name)]: the first entry of that name, or [null]. *)
Fixpoint FormData_get (l : list (string * string)) (key : string) : jsval :=
  match l with
  | [] => VNull
  | (k, v) :: rest => if String.eqb k key then VStr v else FormData_get rest key
  end.

(** The [forEach] of [getFormData]: every input is validated. *)
Fixpoint validate_all (inputs : list Input) : bool * list Event :=
  match inputs with
  | [] => (true, [])
  | input :: rest =>
      let (ok, evs) := validateInput input in
      let (oks, evss) := validate_all rest in
      (ok && oks, (evs ++ evss)%list)
  end.

(** [parseInt(formData.get(key)) || d] and [parseFloat(...) || d]; the
    argument is a string or [null], whose conversion never throws. *)
Definition int_field (form : Form) (key : string) (d : number) : number :=
  match parseInt (FormData_get (entries form) key) with
  | Ok x => or_else x d
  | Throw _ => d
  end.

Definition float_field (form : Form) (key : string) (d : number) : number :=
  match parseFloat (FormData_get (entries form) key) with
  | Ok x => or_else x d
  | Throw _ => d
  end.

(** [getFormData()]: [None] is the [null] it returns when an input is
    rejected. *)
Definition getFormData (form : Form) : option OrderInput * list Event :=
  let (isValid, evs) := validate_all (number_inputs form) in
  if negb isValid
  then (None, (evs ++ [ShowError "Please correct the errors above before calculating."])%list)
  else (Some {| stitches := int_field form "stitches" lit_0;
                items := int_field form "items" lit_1;
                appliques := int_field form "appliques" lit_0;
                blankCost := float_field form "blankCost" lit_0;
                designCost := float_field form "designCost" lit_0 |}, evs).

(** [performCalculations(data)]. *)
Definition performCalculations (st : State) (data : OrderInput) : PriceBreakdown :=
  let stitchCost := mul (div (stitches data) lit_1000) (stitchRate (settings st)) in
  let appliqueCost := mul (appliques data) (appliqueRate (settings st)) in
  let blankCost := blankCost data in
  let insuranceCost := mul blankCost (insuranceRate (settings st)) in
  let designCost := designCost data in
  let perItemCost :=
    add (add (add (add stitchCost appliqueCost) blankCost) insuranceCost) designCost in
  let totalCost := mul perItemCost (items data) in
  {| stitchCost := stitchCost;
     appliqueCost := appliqueCost;
     blankCostOut := blankCost;
     insuranceCost := insuranceCost;
     designCostOut := designCost;
     perItemCost := perItemCost;
     totalCost := totalCost |}.

(** [calculatePrice()]: the results are computed and displayed only when
    [getFormData()] returns data; the loading mark is removed in any case. *)
Definition calculatePrice (st : State) (form : Form) : State :=
  let st1 := emit [ShowLoading true] st in
  let (formData, evs) := getFormData form in
  let st2 := emit evs st1 in
  match formData with
  | None => emit [ShowLoading false] st2
  | Some data =>
      let results := performCalculations st2 data in
      emit [DisplayResults results data; ShowResults true; ShowLoading false] st2
  end.

(** The settings form: the value of each of its three inputs, [None] when
    the element is not in the page (the [?.value] is then [undefined]). *)
Record SettingsForm : Type := {
  stitch_rate_input : option string;
  applique_rate_input : option string;
  insurance_rate_input : option string
}.

Definition input_value (o : option string) : jsval :=
  match o with Some s => VStr s | None => VUndefined end.

(** [saveSettingsFromForm()]. *)
Definition saveSettingsFromForm (st : State) (f : SettingsForm) : result State :=
  x1 <- parseFloat (input_value (stitch_rate_input f)) ;;
  let stitchRate := or_else x1 lit_0_50 in
  x2 <- parseFloat (input_value (applique_rate_input f)) ;;
  let appliqueRate := or_else x2 lit_1_00 in
  x3 <- parseFloat (input_value (insurance_rate_input f)) ;;
  let insuranceRate := or_else (div x3 lit_100) lit_0_10 in
  r1 <- validateNumber (VNum stitchRate) lit_0_50 lit_0 lit_10 ;;
  r2 <- validateNumber (VNum appliqueRate) lit_1_00 lit_0 lit_50 ;;
  r3 <- validateNumber (VNum insuranceRate) lit_0_10 lit_0 lit_1 ;;
  let st1 := with_settings {| stitchRate := r1; appliqueRate := r2; insuranceRate := r3 |} st in
  Ok (emit [CloseSettingsModal; ShowSuccess "Settings saved successfully!"]
           (saveSettings st1)).

End Calc.

(* ================================================================= *)
(** ** What the specification speaks of *)

Module Spec.
Import Num Str Value Json Calc.
Local Open Scope string_scope.

(** The three settings, with the default and the bounds [loadSettings] and
    [saveSettingsFromForm] pass to [validateNumber] for each. *)
Inductive field : Type := StitchRate | AppliqueRate | InsuranceRate.

Definition field_name (f : field) : string :=
  match f with
  | StitchRate => "stitchRate"
  | AppliqueRate => "appliqueRate"
  | InsuranceRate => "insuranceRate"
  end.

Definition field_default (f : field) : number :=
  match f with
  | StitchRate => lit_0_50
  | AppliqueRate => lit_1_00
  | InsuranceRate => lit_0_10
  end.

Definition field_min (f : field) : number := lit_0.

Definition field_max (f : field) : number :=
  match f with
  | StitchRate => lit_10
  | AppliqueRate => lit_50
  | InsuranceRate => lit_1
  end.

Definition field_of (f : field) (s : Settings) : number :=
  match f with
  | StitchRate => stitchRate s
  | AppliqueRate => appliqueRate s
  | InsuranceRate => insuranceRate s
  end.

Definition field_eqb (f g : field) : bool :=
  match f, g with
  | StitchRate, StitchRate | AppliqueRate, AppliqueRate
  | InsuranceRate, InsuranceRate => true
  | _, _ => false
  end.

(** [lo <= x <= hi], with the comparisons of the language. *)
Definition in_range (lo hi x : number) : Prop :=
  le lo x = true /\ le x hi = true.

(** [x] parsed to a Number that is not finite or lies outside [lo, hi]. *)
Definition out_of_range (lo hi x : number) : Prop :=
  is_finite x = false \/ lt x lo = true \/ gt x hi = true.

(** The invariant of the data model: 0 <= stitchRate <= 10,
    0 <= appliqueRate <= 50, 0 <= insuranceRate <= 1. *)
Definition settings_in_range (s : Settings) : Prop :=
  forall f, in_range (field_min f) (field_max f) (field_of f s).

(** The pricing formulas, in the words of the specification. *)
Definition computePrice (order : OrderInput) (s : Settings) : PriceBreakdown :=
  let stitchCost := mul (div (stitches order) lit_1000) (stitchRate s) in
  let appliqueCost := mul (appliques order) (appliqueRate s) in
  let insuranceCost := mul (blankCost order) (insuranceRate s) in
  let perItemCost :=
    add (add (add (add stitchCost appliqueCost) (blankCost order)) insuranceCost)
        (designCost order) in
  {| stitchCost := stitchCost;
     appliqueCost := appliqueCost;
     blankCostOut := blankCost order;
     insuranceCost := insuranceCost;
     designCostOut := designCost order;
     perItemCost := perItemCost;
     totalCost := mul perItemCost (items order) |}.

(** The decision [validateNumber] takes for the setting [f] once its
    argument is parsed to [x]. *)
Definition decide (f : field) (x : number) : number :=
  if isNaN x || lt x (field_min f) || gt x (field_max f)
  then field_default f else x.

(** [parseFloat(parsed.f)]: the setting [f] of a parsed record, read as a
    Number. *)
Definition field_number (parsed : jsval) (f : field) : result number :=
  bind (get parsed (field_name f)) parseFloat.

(** The validation of the setting [f] on the load path: the call of
    [validateNumber] in [loadSettings], on the raw stored value. *)
Definition load_validation (f : field) (raw : jsval) : result number :=
  validateNumber raw (field_default f) (field_min f) (field_max f).

(** The Number the form path hands to [validateNumber] before the [||]:
    the parsed input, divided by 100 for the insurance rate. *)
Definition form_number (f : field) (x : number) : number :=
  match f with
  | InsuranceRate => div x lit_100
  | _ => x
  end.

(** The validation of the setting [f] on the save path: what
    [saveSettingsFromForm] does with the raw value of the input. *)
Definition form_validation (f : field) (raw : jsval) : result number :=
  bind (parseFloat raw) (fun x =>
    validateNumber (VNum (or_else (form_number f x) (field_default f)))
                   (field_default f) (field_min f) (field_max f)).

(** The Number [parseFloat] reads from an input of the settings form; a
    missing element gives [undefined], read as ["undefined"]. *)
Definition input_number (o : option string) : number :=
  parseFloat_str (match o with Some s => s | None => "undefined" end).

(** The setting [f] that [saveSettingsFromForm] derives from the input
    [o]: the [||] with the default, the conversion of the Number to a
    string and back inside [validateNumber], then its decision. *)
Definition form_result (f : field) (o : option string) : number :=
  decide f (parseFloat_str
              (Number_toString
                 (or_else (form_number f (input_number o)) (field_default f)))).

(** The input of the settings form that holds the setting [f]. *)
Definition form_input (f : field) (form : SettingsForm) : option string :=
  match f with
  | StitchRate => stitch_rate_input form
  | AppliqueRate => applique_rate_input form
  | InsuranceRate => insurance_rate_input form
  end.

(** The page at start-up, before the constructor calls [loadSettings()]. *)
Definition initial (sto : Storage) : State :=
  {| settings := default_settings; storage := sto; ui := [] |}.

(** The self-healing load of the specification at the storage [sto]: the
    constructor ends with the default settings, and with the storage a
    save of them leaves. *)
Definition load_heals (sto : Storage) : Prop :=
  settings (constructor sto) = default_settings
  /\ storage (constructor sto) = storage (saveSettings (initial sto)).

(** One validation policy on both paths: the load path and the save path
    give every raw value of every setting the same outcome. *)
Definition one_policy : Prop :=
  forall (f : field) (raw : jsval), load_validation f raw = form_validation f raw.

(** One step of the life of a calculator: a method runs, or the entry of
    [localStorage] is changed from outside. *)
Inductive step : State -> State -> Prop :=
| step_loadSettings st :
    step st (loadSettings st)
| step_saveSettings st :
    step st (saveSettings st)
| step_calculatePrice st form :
    step st (calculatePrice st form)
| step_saveSettingsFromForm st f st' :
    saveSettingsFromForm st f = Ok st' -> step st st'
| step_storage st sto :
    step st (with_storage sto st).

Inductive reachable : State -> Prop :=
| reachable_initial sto : reachable (initial sto)
| reachable_step st st' : reachable st -> step st st' -> reachable st'.

(** Strict equality [===] of two Numbers. *)
Definition same_number (x y : number) : bool := SFeqb x y.

Definition same_settings (s t : Settings) : Prop :=
  forall f, same_number (field_of f s) (field_of f t) = true.

(** [parseFloat(parsed.key) === x]. *)
Definition reads_as (parsed : jsval) (key : string) (x : number) : bool :=
  match get parsed key with
  | Ok p => match parseFloat p with
            | Ok y => same_number y x
            | Throw _ => false
            end
  | Throw _ => false
  end.

(** The runtime reads the text it writes for [s] back as the three Numbers
    of [s]: what the round trip of Number::toString, [JSON.stringify] and
    [JSON.parse] gives for finite Numbers. *)
Definition reads_back (s : Settings) : bool :=
  match JSON_parse (JSON_stringify (settings_members s)) with
  | Ok parsed =>
      reads_as parsed "stitchRate" (stitchRate s)
      && reads_as parsed "appliqueRate" (appliqueRate s)
      && reads_as parsed "insuranceRate" (insuranceRate s)
  | Throw _ => false
  end.

(** Number::toString and [parseFloat] give [x] back. *)
Definition prints_back (x : number) : Prop :=
  parseFloat_str (Number_toString x) = x.

(** A character that continues no numeric literal. *)
Definition non_numeric (c : ascii) : bool :=
  negb (is_digit c)
  && negb (Ascii.eqb c "."%char) && negb (Ascii.eqb c "e"%char)
  && negb (Ascii.eqb c "E"%char) && negb (Ascii.eqb c "+"%char)
  && negb (Ascii.eqb c "-"%char).

(** A text that starts with such a character. *)
Definition non_numeric_start (t : string) : Prop :=
  match t with
  | String c _ => non_numeric c = true
  | EmptyString => False
  end.

(** A stored text that is a JSON object with the three settings as
    strings or Numbers: used to write stored records down. *)
Definition record_text (a b c : string) : string :=
  "{" ++ quoted "stitchRate" ++ ":" ++ a
      ++ "," ++ quoted "appliqueRate" ++ ":" ++ b
      ++ "," ++ quoted "insuranceRate" ++ ":" ++ c ++ "}".

(** The bounds [validateInput] checks a value against: the [min] and [max]
    attributes, each with its [||] fallback. *)
Definition input_min (input : Input) : number :=
  or_else (parseFloat_str (min input)) lit_0.

Definition input_max (input : Input) : number :=
  or_else (parseFloat_str (max input)) MAX_VALUE.

(** The input [input] with another [max] attribute. *)
Definition with_max (m : string) (input : Input) : Input :=
  {| name := name input; value := value input; required := required input;
     min := min input; max := m |}.

(** The form data holds no entry [key], or an empty one. *)
Definition missing (form : Form) (key : string) : Prop :=
  FormData_get (entries form) key = VNull
  \/ FormData_get (entries form) key = VStr EmptyString.

(** A string of white space only. *)
Fixpoint all_spaces (s : string) : bool :=
  match s with
  | String c r => is_space c && all_spaces r
  | EmptyString => true
  end.

(** The values [parseFloat] reads no Number from, whatever follows:
    [undefined], [null], a boolean, a string of white space only, an empty
    array, an object without a property [toString] of its own. *)
Definition blank (v : jsval) : bool :=
  match v with
  | VUndefined | VNull | VBool _ => true
  | VStr s => all_spaces s
  | VArr [] => true
  | VObj props =>
      match own_property "toString" props with
      | None => true
      | Some _ => false
      end
  | _ => false
  end.

(** A write to the storage throws. *)
Definition write_fails (sto : Storage) : bool :=
  access_denied sto || quota_exceeded sto.

Definition stored (text : string) : Storage :=
  {| entry := Some text; access_denied := false; quota_exceeded := false |}.

Definition nothing_stored : Storage :=
  {| entry := None; access_denied := false; quota_exceeded := false |}.

(** The setting [f] of a parsed record is corrupt: it does not read as a
    finite Number within its range. *)
Definition corrupt (parsed : jsval) (f : field) : Prop :=
  match field_number parsed f with
  | Ok x => out_of_range (field_min f) (field_max f) x
  | Throw _ => True
  end.

(** The setting [f] of a parsed record is valid, with the Number [x]. *)
Definition valid (parsed : jsval) (f : field) (x : number) : Prop :=
  field_number parsed f = Ok x
  /\ is_finite x = true
  /\ in_range (field_min f) (field_max f) x.

(** Field isolation as the specification words it: for every stored record
    that parses, with one corrupt setting and two valid ones, the
    constructor ends with the valid ones as stored and with the default
    for the corrupt one. *)
Definition field_isolation : Prop :=
  forall (text : string) (parsed : jsval) (bad : field) (num : field -> number),
    JSON_parse text = Ok parsed ->
    corrupt parsed bad ->
    (forall f, f <> bad -> valid parsed f (num f)) ->
    forall f, field_of f (settings (constructor (stored text)))
              = if field_eqb f bad then field_default f else num f.

(** The round trip of the specification at the storage [sto]: load, save
    what was loaded, load again; the Settings are identical. *)
Definition identical_reload (sto : Storage) : Prop :=
  settings (constructor (storage (saveSettings (constructor sto))))
  = settings (constructor sto).

(** The Number [x] survives the round trip of the settings entry: the text
    Number::toString gives for it is one JSON number, read whole as a
    Number [y], and [parseFloat] of the text of [y] is [===] to [x]. *)
Definition number_round_trips (x : number) : bool :=
  match number_token (Number_toString x) with
  | Some (y, rest) =>
      is_empty rest && same_number (parseFloat_str (Number_toString y)) x
  | None => false
  end.

End Spec.

(* ================================================================= *)
(** ** Facts about Numbers *)

Module NumFacts.
Import Num.

Lemma SFcompare_antisym (x y : number) :
  SFcompare y x = match SFcompare x y with
                  | Some c => Some (CompOpp c)
                  | None => None
                  end.
Proof.
  destruct x as [sx | sx | | sx mx ex], y as [sy | sy | | sy my ey];
    simpl; try reflexivity;
    try (destruct sx; reflexivity); try (destruct sy; reflexivity);
    try (destruct sx, sy; reflexivity).
  destruct sx, sy; simpl; try reflexivity;
    rewrite (Z.compare_antisym ey ex);
    destruct (ey ?= ex)%Z; simpl; try reflexivity;
    rewrite (Pos.compare_cont_antisym mx my Eq); reflexivity.
Qed.

Lemma compare_not_NaN (x y : number) :
  isNaN x = false -> isNaN y = false -> exists c, SFcompare x y = Some c.
Proof.
  destruct x, y; simpl; try discriminate; intros _ _; eexists; reflexivity.
Qed.

Lemma lt_false_le (x y : number) :
  isNaN x = false -> isNaN y = false -> lt x y = false -> le y x = true.
Proof.
  intros Hx Hy. unfold lt, le, SFltb, SFleb.
  rewrite (SFcompare_antisym x y).
  destruct (compare_not_NaN x y Hx Hy) as [c ->].
  destruct c; simpl; congruence.
Qed.

Lemma le_lt_false (x y : number) : le y x = true -> lt x y = false.
Proof.
  unfold lt, le, SFltb, SFleb. rewrite (SFcompare_antisym x y).
  destruct (SFcompare x y) as [[ | | ] | ]; simpl; intro H;
    try reflexivity; discriminate H.
Qed.

Lemma le_not_NaN_l (x y : number) : le x y = true -> isNaN x = false.
Proof. destruct x; simpl; try reflexivity; discriminate. Qed.

Lemma le_not_NaN_r (x y : number) : le x y = true -> isNaN y = false.
Proof. destruct y; simpl; try reflexivity; destruct x; discriminate. Qed.

Lemma le_gt_false (x y : number) : le x y = true -> gt x y = false.
Proof. exact (le_lt_false y x). Qed.

Lemma gt_false_le (x y : number) :
  isNaN x = false -> isNaN y = false -> gt x y = false -> le x y = true.
Proof. intros Hx Hy. exact (lt_false_le y x Hy Hx). Qed.

(** [===] is Leibniz equality except between the two zeros. *)
Lemma same_number_cases (x y : number) :
  SFeqb x y = true -> x = y \/ (is_zero x = true /\ is_zero y = true).
Proof.
  unfold SFeqb.
  destruct x as [sx | sx | | sx mx ex], y as [sy | sy | | sy my ey];
    simpl; try discriminate; auto;
    try (destruct sx; discriminate); try (destruct sy; discriminate).
  - destruct sx, sy; simpl; try discriminate; auto.
  - destruct sx, sy; simpl; try discriminate;
      destruct (ex ?= ey)%Z eqn:He; try discriminate;
      apply Z.compare_eq in He; subst ey;
      destruct (Pos.compare_cont Eq mx my) eqn:Hm; try discriminate;
      apply Pos.compare_eq in Hm; subst my; auto.
Qed.

(** A comparison does not see the sign of a zero. *)
Lemma compare_zero_l (s t : bool) (y : number) :
  SFcompare (S754_zero s) y = SFcompare (S754_zero t) y.
Proof. destruct y; reflexivity. Qed.

Lemma compare_zero_r (s t : bool) (x : number) :
  SFcompare x (S754_zero s) = SFcompare x (S754_zero t).
Proof. destruct x; reflexivity. Qed.

Lemma same_number_compare_l (x y z : number) :
  SFeqb x y = true -> SFcompare x z = SFcompare y z.
Proof.
  intro H. destruct (same_number_cases x y H) as [-> | [Hx Hy]]; [reflexivity | ].
  destruct x, y; try discriminate. apply compare_zero_l.
Qed.

Lemma same_number_compare_r (x y z : number) :
  SFeqb x y = true -> SFcompare z x = SFcompare z y.
Proof.
  intro H. destruct (same_number_cases x y H) as [-> | [Hx Hy]]; [reflexivity | ].
  destruct x, y; try discriminate. apply compare_zero_r.
Qed.

Lemma same_number_isNaN (x y : number) :
  SFeqb x y = true -> isNaN x = false /\ isNaN y = false.
Proof. destruct x, y; simpl; try discriminate; auto. Qed.

Lemma same_number_refl (x : number) : isNaN x = false -> SFeqb x x = true.
Proof.
  unfold SFeqb. destruct x as [s | s | | s m e]; simpl; try discriminate; auto.
  - destruct s; reflexivity.
  - intros _. destruct s; rewrite Z.compare_refl, Pos.compare_cont_refl; reflexivity.
Qed.

End NumFacts.

(* ================================================================= *)
(** ** Facts about [parseFloat] on strings *)

Module StrFacts.
Import Num Str Spec.
Local Open Scope string_scope.

Lemma non_numeric_not_digit (c : ascii) : non_numeric c = true -> is_digit c = false.
Proof.
  unfold non_numeric. destruct (is_digit c); [discriminate | reflexivity].
Qed.

Lemma non_numeric_chars (c : ascii) :
  non_numeric c = true ->
  Ascii.eqb c "." = false /\ Ascii.eqb c "e" = false /\ Ascii.eqb c "E" = false
  /\ Ascii.eqb c "+" = false /\ Ascii.eqb c "-" = false.
Proof.
  unfold non_numeric. intro H.
  repeat (apply andb_prop in H; destruct H as [H ?]).
  repeat match goal with
         | K : negb _ = true |- _ => apply negb_true_iff in K
         end.
  auto.
Qed.

(** What follows the digits is left untouched by a tail that does not
    start with a digit. *)
Lemma take_digits_app (q t : string) :
  non_numeric_start t ->
  take_digits (q ++ t) = (fst (take_digits q), snd (take_digits q) ++ t).
Proof.
  intro Ht. induction q as [ | c q IH]; simpl.
  - destruct t as [ | c t']; [contradiction | ].
    simpl in Ht. simpl. rewrite (non_numeric_not_digit _ Ht). reflexivity.
  - destruct (is_digit c); [ | reflexivity].
    rewrite IH. destruct (take_digits q); reflexivity.
Qed.

Lemma take_sign_app (q t : string) :
  non_numeric_start t ->
  take_sign (q ++ t) = (fst (take_sign q), snd (take_sign q) ++ t).
Proof.
  intro Ht. destruct q as [ | c q]; simpl.
  - destruct t as [ | c t']; [contradiction | ].
    simpl in Ht. destruct (non_numeric_chars _ Ht) as (_ & _ & _ & Hp & Hm).
    simpl. rewrite Hm, Hp. reflexivity.
  - destruct (Ascii.eqb c "-"); [reflexivity | ].
    destruct (Ascii.eqb c "+"); reflexivity.
Qed.

Lemma take_exponent_app (s t : string) :
  non_numeric_start t -> take_exponent (s ++ t) = take_exponent s.
Proof.
  intro Ht. destruct s as [ | c r]; simpl.
  - destruct t as [ | c t']; [contradiction | ].
    simpl in Ht. destruct (non_numeric_chars _ Ht) as (_ & He & HE & _ & _).
    simpl. rewrite He, HE. reflexivity.
  - destruct (Ascii.eqb c "e" || Ascii.eqb c "E"); [ | reflexivity].
    rewrite (take_sign_app r t Ht).
    destruct (take_sign r) as [eneg r1]. simpl.
    rewrite (take_digits_app r1 t Ht).
    destruct (take_digits r1) as [ed rest]. reflexivity.
Qed.

Lemma trim_start_app (p t : string) :
  trim_start p <> EmptyString -> trim_start (p ++ t) = trim_start p ++ t.
Proof.
  induction p as [ | c p IH]; simpl.
  - intro H. contradiction H. reflexivity.
  - destruct (is_space c); [exact IH | reflexivity].
Qed.

Lemma starts_with_app (a s t : string) :
  starts_with a s = true -> starts_with a (s ++ t) = true.
Proof.
  revert s. induction a as [ | c a IH]; intros s H; [reflexivity | ].
  destruct s as [ | d s]; [discriminate | ].
  simpl in *. destruct (Ascii.eqb d c); simpl in *; [auto | discriminate].
Qed.

(** A literal that is not [NaN] starts with a digit or a dot. *)
Lemma decimal_literal_head (neg : bool) (s : string) :
  isNaN (decimal_literal neg s) = false ->
  exists c r, s = String c r /\ (is_digit c = true \/ c = "."%char).
Proof.
  unfold decimal_literal. destruct s as [ | c r]; simpl; [discriminate | ].
  intro H. exists c, r. split; [reflexivity | ].
  destruct (is_digit c); [auto | ].
  destruct (Ascii.eqb c ".") eqn:Hdot; [right; apply Ascii.eqb_eq; exact Hdot | ].
  simpl in H. discriminate.
Qed.

Lemma decimal_literal_app (neg : bool) (s t : string) :
  non_numeric_start t ->
  isNaN (decimal_literal neg s) = false ->
  decimal_literal neg (s ++ t) = decimal_literal neg s.
Proof.
  intros Ht Hs. unfold decimal_literal in *.
  rewrite (take_digits_app s t Ht).
  destruct (take_digits s) as [ip s3]. simpl fst; simpl snd.
  destruct s3 as [ | c r].
  - destruct t as [ | d t'] eqn:Et; [contradiction | ].
    simpl in Ht. destruct (non_numeric_chars _ Ht) as (Hdot & He & HE & _ & _).
    simpl. rewrite Hdot.
    destruct (is_empty ip); simpl in *; [discriminate | ].
    rewrite He, HE. reflexivity.
  - simpl. destruct (Ascii.eqb c ".").
    + rewrite (take_digits_app r t Ht).
      destruct (take_digits r) as [fp s4]. simpl fst; simpl snd.
      rewrite (take_exponent_app s4 t Ht). reflexivity.
    + change (String c (r ++ t)) with (String c r ++ t).
      rewrite (take_exponent_app (String c r) t Ht). reflexivity.
Qed.

Lemma Infinity_head (c : ascii) (r : string) :
  is_digit c = true \/ c = "."%char -> starts_with "Infinity" (String c r) = false.
Proof.
  intro H. simpl. destruct (Ascii.eqb c "I") eqn:E; [ | reflexivity].
  apply Ascii.eqb_eq in E. subst c. destruct H as [H | H]; discriminate H.
Qed.

(** A text that starts with a character of no numeric literal, put after a
    string that [parseFloat] reads as a Number, is ignored. *)
Lemma parseFloat_str_app (p t : string) :
  non_numeric_start t ->
  isNaN (parseFloat_str p) = false ->
  parseFloat_str (p ++ t) = parseFloat_str p.
Proof.
  intros Ht Hp. unfold parseFloat_str in *.
  assert (Hq : trim_start p <> EmptyString).
  { intro E. rewrite E in Hp. discriminate Hp. }
  rewrite (trim_start_app p t Hq).
  rewrite (take_sign_app (trim_start p) t Ht).
  destruct (take_sign (trim_start p)) as [neg s2]. simpl fst; simpl snd.
  destruct (starts_with "Infinity" s2) eqn:Hinf.
  - rewrite (starts_with_app _ _ t Hinf). reflexivity.
  - destruct (decimal_literal_head _ _ Hp) as (c & r & -> & Hc).
    change (String c r ++ t) with (String c (r ++ t)).
    rewrite (Infinity_head c (r ++ t) Hc).
    change (String c (r ++ t)) with (String c r ++ t).
    apply decimal_literal_app; assumption.
Qed.

End StrFacts.

(* ================================================================= *)
(** ** The settings store *)

Module CalcFacts.
Import Num Str Value Json Calc Spec NumFacts.
Local Open Scope string_scope.

Lemma bind_Ok {A B : Type} (r : result A) (k : A -> result B) (b : B) :
  bind r k = Ok b -> exists a, r = Ok a /\ k a = Ok b.
Proof. destruct r as [a | e]; simpl; [eauto | discriminate]. Qed.

(** Splits a hypothesis [x <- r ;; k = Ok b] into its steps. *)
Ltac inv_bind H :=
  let a := fresh "a" in
  let Ha := fresh "Ha" in
  apply bind_Ok in H; destruct H as [a [Ha H]].

(** *** [validateNumber] *)

Lemma validateNumber_parsed (v : jsval) (d lo hi num : number) :
  parseFloat v = Ok num ->
  validateNumber v d lo hi
  = Ok (if isNaN num || lt num lo || gt num hi then d else num).
Proof. intro H. unfold validateNumber. rewrite H. reflexivity. Qed.

Lemma validateNumber_in_range (v : jsval) (d lo hi r : number) :
  isNaN lo = false -> isNaN hi = false -> in_range lo hi d ->
  validateNumber v d lo hi = Ok r -> in_range lo hi r.
Proof.
  intros Hlo Hhi Hd H. unfold validateNumber in H. inv_bind H.
  injection H as <-.
  destruct (isNaN a) eqn:Hn; simpl; [exact Hd | ].
  destruct (lt a lo) eqn:Hl; simpl; [exact Hd | ].
  destruct (gt a hi) eqn:Hg; simpl; [exact Hd | ].
  split; [apply lt_false_le | apply gt_false_le]; assumption.
Qed.

Lemma validateNumber_accepts (v : jsval) (d lo hi num : number) :
  parseFloat v = Ok num ->
  is_finite num = true -> in_range lo hi num ->
  validateNumber v d lo hi = Ok num.
Proof.
  intros Hv Hfin [Hlo Hhi]. rewrite (validateNumber_parsed v d lo hi num Hv).
  rewrite (le_lt_false _ _ Hlo), (le_gt_false _ _ Hhi).
  destruct num; try discriminate Hfin; reflexivity.
Qed.

Lemma parseFloat_number (x : number) :
  parseFloat (VNum x) = Ok (parseFloat_str (Number_toString x)).
Proof. reflexivity. Qed.

Lemma parseFloat_string (s : string) : parseFloat (VStr s) = Ok (parseFloat_str s).
Proof. reflexivity. Qed.

(** *** The invariant of the settings *)

Lemma field_bounds_not_NaN (f : field) :
  isNaN (field_min f) = false /\ isNaN (field_max f) = false.
Proof. destruct f; split; reflexivity. Qed.

Lemma field_default_in_range (f : field) :
  in_range (field_min f) (field_max f) (field_default f).
Proof. destruct f; split; reflexivity. Qed.

Lemma default_settings_in_range : settings_in_range default_settings.
Proof. intro f. destruct f; split; reflexivity. Qed.

Lemma validated_field (f : field) (v : jsval) (r : number) :
  validateNumber v (field_default f) (field_min f) (field_max f) = Ok r ->
  in_range (field_min f) (field_max f) r.
Proof.
  destruct (field_bounds_not_NaN f) as [Hlo Hhi].
  apply validateNumber_in_range; auto using field_default_in_range.
Qed.

Lemma validated_settings (v1 v2 v3 : jsval) (r1 r2 r3 : number) :
  validateNumber v1 lit_0_50 lit_0 lit_10 = Ok r1 ->
  validateNumber v2 lit_1_00 lit_0 lit_50 = Ok r2 ->
  validateNumber v3 lit_0_10 lit_0 lit_1 = Ok r3 ->
  settings_in_range {| stitchRate := r1; appliqueRate := r2; insuranceRate := r3 |}.
Proof.
  intros H1 H2 H3 f. destruct f; simpl.
  - exact (validated_field StitchRate _ _ H1).
  - exact (validated_field AppliqueRate _ _ H2).
  - exact (validated_field InsuranceRate _ _ H3).
Qed.

Lemma saveSettings_settings (st : State) : settings (saveSettings st) = settings st.
Proof. unfold saveSettings. destruct (setItem _ _); reflexivity. Qed.

(** What the [try] block of [loadSettings] leaves when it does not throw:
    the state as it was, or three validated settings. *)
Lemma loadSettings_try_Ok (st st' : State) :
  loadSettings_try st = Ok st' ->
  st' = st \/
  exists v1 v2 v3 r1 r2 r3,
    validateNumber v1 lit_0_50 lit_0 lit_10 = Ok r1 /\
    validateNumber v2 lit_1_00 lit_0 lit_50 = Ok r2 /\
    validateNumber v3 lit_0_10 lit_0 lit_1 = Ok r3 /\
    st' = with_settings {| stitchRate := r1; appliqueRate := r2; insuranceRate := r3 |} st.
Proof.
  unfold loadSettings_try. intro H. inv_bind H.
  destruct a as [text | ]; [ | injection H as <-; auto].
  destruct (is_empty text); [injection H as <-; auto | ].
  inv_bind H. inv_bind H. inv_bind H. inv_bind H. inv_bind H. inv_bind H. inv_bind H.
  injection H as <-. right. eauto 10.
Qed.

Lemma loadSettings_in_range (st : State) :
  settings_in_range (settings st) -> settings_in_range (settings (loadSettings st)).
Proof.
  intro Hst. unfold loadSettings.
  destruct (loadSettings_try st) as [st' | e] eqn:Htry.
  - apply loadSettings_try_Ok in Htry.
    destruct Htry as [-> | (v1 & v2 & v3 & r1 & r2 & r3 & H1 & H2 & H3 & ->)]; [exact Hst | ].
    simpl. eapply validated_settings; eassumption.
  - rewrite saveSettings_settings. exact Hst.
Qed.

Lemma saveSettingsFromForm_in_range (st st' : State) (f : SettingsForm) :
  saveSettingsFromForm st f = Ok st' -> settings_in_range (settings st').
Proof.
  unfold saveSettingsFromForm. intro H.
  inv_bind H. inv_bind H. inv_bind H. inv_bind H. inv_bind H. inv_bind H.
  injection H as <-. simpl. rewrite saveSettings_settings. simpl.
  eapply validated_settings; eassumption.
Qed.

Lemma calculatePrice_settings (st : State) (form : Form) :
  settings (calculatePrice st form) = settings st.
Proof.
  unfold calculatePrice. destruct (getFormData form) as [[data | ] evs]; reflexivity.
Qed.

Lemma step_in_range (st st' : State) :
  step st st' -> settings_in_range (settings st) -> settings_in_range (settings st').
Proof.
  intros Hstep Hst. destruct Hstep.
  - apply loadSettings_in_range; exact Hst.
  - rewrite saveSettings_settings. exact Hst.
  - rewrite calculatePrice_settings. exact Hst.
  - eapply saveSettingsFromForm_in_range; eassumption.
  - exact Hst.
Qed.

(** C6.  The settings in memory always satisfy 0 <= stitchRate <= 10,
    0 <= appliqueRate <= 50 and 0 <= insuranceRate <= 1: the defaults the
    page starts from do, and every step keeps it, whatever the stored text,
    the forms and the storage failures. *)
Theorem settings_always_in_range (st : State) :
  reachable st -> settings_in_range (settings st).
Proof.
  induction 1 as [sto | st st' _ IH Hstep].
  - exact default_settings_in_range.
  - exact (step_in_range _ _ Hstep IH).
Qed.


Lemma settings_always_in_range_witness :
  reachable (constructor (stored (record_text "99" "2" "-1")))
  /\ settings_in_range (settings (constructor (stored (record_text "99" "2" "-1")))).
Proof.
  assert (H : reachable (constructor (stored (record_text "99" "2" "-1")))).
  { eapply reachable_step; [apply reachable_initial | apply step_loadSettings]. }
  split; [exact H | exact (settings_always_in_range _ H)].
Defined.

(** *** The pricing computation *)

(** C1.  For every order and every settings, [performCalculations] returns
    the breakdown of the specification: stitchCost = (stitches / 1000) *
    stitchRate, appliqueCost = appliques * appliqueRate, blankCost as
    given, insuranceCost = blankCost * insuranceRate, designCost as given,
    perItemCost the sum of the five in that order, totalCost =
    perItemCost * items. *)
Theorem performCalculations_formulas (st : State) (order : OrderInput) :
  let s := settings st in
  let r := performCalculations st order in
  stitchCost r = mul (div (stitches order) lit_1000) (stitchRate s)
  /\ appliqueCost r = mul (appliques order) (appliqueRate s)
  /\ blankCostOut r = blankCost order
  /\ insuranceCost r = mul (blankCostOut r) (insuranceRate s)
  /\ designCostOut r = designCost order
  /\ perItemCost r
     = add (add (add (add (stitchCost r) (appliqueCost r)) (blankCostOut r))
                (insuranceCost r)) (designCostOut r)
  /\ totalCost r = mul (perItemCost r) (items order)
  /\ r = computePrice order s.
Proof. repeat split. Qed.

(** *** [validateNumber] on its own *)

(** C2.  When the raw input parses to [num]: [validateNumber] returns
    [num] if it is finite and min <= num <= max, and returns the default
    if [num] is [NaN], below min or above max; between bounds that are
    Numbers, it returns the default as soon as min <= num <= max fails. *)
Theorem validateNumber_spec (v : jsval) (d lo hi num : number) :
  parseFloat v = Ok num ->
  (is_finite num = true -> in_range lo hi num ->
   validateNumber v d lo hi = Ok num)
  /\ (isNaN num = true \/ lt num lo = true \/ gt num hi = true ->
      validateNumber v d lo hi = Ok d)
  /\ (isNaN lo = false -> isNaN hi = false -> ~ in_range lo hi num ->
      validateNumber v d lo hi = Ok d).
Proof.
  intro Hv. rewrite (validateNumber_parsed v d lo hi num Hv). repeat split.
  - intros Hfin [Hlo Hhi].
    rewrite (le_lt_false _ _ Hlo), (le_gt_false _ _ Hhi).
    destruct num; try discriminate Hfin; reflexivity.
  - intros [H | [H | H]]; rewrite H; try reflexivity.
    + rewrite orb_true_r. reflexivity.
    + rewrite orb_true_r. reflexivity.
  - intros Hlo Hhi Hout.
    destruct (isNaN num) eqn:Hn; [reflexivity | ].
    destruct (lt num lo) eqn:Hl; [reflexivity | ].
    destruct (gt num hi) eqn:Hg; [reflexivity | ].
    exfalso. apply Hout.
    split; [apply lt_false_le | apply gt_false_le]; assumption.
Qed.

Lemma validateNumber_spec_witness :
  parseFloat (VStr "7.25") = Ok (of_decimal false 725 (-2))
  /\ validateNumber (VStr "7.25") lit_0_50 lit_0 lit_10 = Ok (of_decimal false 725 (-2)).
Proof.
  assert (H : parseFloat (VStr "7.25") = Ok (of_decimal false 725 (-2)))
    by (vm_compute; reflexivity).
  split; [exact H | ].
  apply (proj1 (validateNumber_spec _ lit_0_50 lit_0 lit_10 _ H)).
  - vm_compute; reflexivity.
  - split; vm_compute; reflexivity.
Defined.

(** C10.  A string made of a prefix that [parseFloat] reads as a finite
    Number within [min, max], followed by characters that belong to no
    numeric literal, is accepted: [validateNumber] returns the Number of
    the prefix, not the default (["5abc"] gives 5 between 0 and 10). *)
Theorem validateNumber_accepts_numeric_prefix (p t : string) (d lo hi : number) :
  non_numeric_start t ->
  is_finite (parseFloat_str p) = true ->
  in_range lo hi (parseFloat_str p) ->
  validateNumber (VStr (p ++ t)) d lo hi = Ok (parseFloat_str p).
Proof.
  intros Ht Hfin Hin.
  assert (Hn : isNaN (parseFloat_str p) = false)
    by (destruct (parseFloat_str p); try discriminate Hfin; reflexivity).
  assert (Hv : parseFloat (VStr (p ++ t)) = Ok (parseFloat_str p)).
  { rewrite parseFloat_string, (StrFacts.parseFloat_str_app p t Ht Hn). reflexivity. }
  exact (validateNumber_accepts _ d lo hi _ Hv Hfin Hin).
Qed.

Lemma validateNumber_accepts_numeric_prefix_witness :
  non_numeric_start "abc"
  /\ validateNumber (VStr "5abc") lit_0_50 lit_0 lit_10 = Ok (of_decimal false 5 0)
  /\ of_decimal false 5 0 <> lit_0_50.
Proof.
  split; [vm_compute; reflexivity | split].
  - apply (validateNumber_accepts_numeric_prefix "5" "abc" lit_0_50 lit_0 lit_10).
    + vm_compute; reflexivity.
    + vm_compute; reflexivity.
    + split; vm_compute; reflexivity.
  - vm_compute. discriminate.
Defined.

(** *** The settings form *)

Lemma parseFloat_input_value (o : option string) :
  parseFloat (input_value o) = Ok (input_number o).
Proof. destruct o; reflexivity. Qed.

Lemma form_validation_result (f : field) (o : option string) :
  form_validation f (input_value o) = Ok (form_result f o).
Proof.
  unfold form_validation. rewrite parseFloat_input_value. reflexivity.
Qed.

(** [saveSettingsFromForm] never throws; each setting is the outcome of
    the form path on its input. *)
Lemma saveSettingsFromForm_Ok (st : State) (f : SettingsForm) :
  saveSettingsFromForm st f
  = Ok (emit [CloseSettingsModal; ShowSuccess "Settings saved successfully!"]
          (saveSettings
             (with_settings
                {| stitchRate := form_result StitchRate (stitch_rate_input f);
                   appliqueRate := form_result AppliqueRate (applique_rate_input f);
                   insuranceRate := form_result InsuranceRate (insurance_rate_input f) |}
                st))).
Proof.
  unfold saveSettingsFromForm.
  rewrite !parseFloat_input_value. reflexivity.
Qed.

Lemma saveSettingsFromForm_field (st st' : State) (form : SettingsForm) (f : field) :
  saveSettingsFromForm st form = Ok st' ->
  field_of f (settings st') = form_result f (form_input f form).
Proof.
  rewrite saveSettingsFromForm_Ok. intro H. injection H as <-.
  simpl. rewrite saveSettings_settings. destruct f; reflexivity.
Qed.

Lemma div_zero_lit_100 (x : number) :
  is_zero x = true -> is_zero (div x lit_100) = true.
Proof. destruct x; try discriminate. reflexivity. Qed.

Lemma or_else_zero (x d : number) : is_zero x = true -> or_else x d = d.
Proof. destruct x; try discriminate. reflexivity. Qed.

(** C8.  In [saveSettingsFromForm], an insurance-rate input whose value
    parses to zero (the user enters 0 percent) is zero again after the
    division by 100, falsy for the [||], and replaced by 0.10: the
    resulting insuranceRate is the default 0.10, not 0. *)
Theorem zero_insurance_input_becomes_default
    (st : State) (form : SettingsForm) (raw : string) :
  insurance_rate_input form = Some raw ->
  is_zero (parseFloat_str raw) = true ->
  exists st',
    saveSettingsFromForm st form = Ok st'
    /\ insuranceRate (settings st') = lit_0_10
    /\ same_number (insuranceRate (settings st')) lit_0 = false.
Proof.
  intros Hraw Hzero. eexists. split; [apply saveSettingsFromForm_Ok | ].
  cbn [settings emit]. rewrite saveSettings_settings.
  cbn [settings with_settings insuranceRate]. rewrite Hraw.
  unfold form_result, form_number, input_number.
  rewrite (or_else_zero _ _ (div_zero_lit_100 _ Hzero)).
  split; vm_compute; reflexivity.
Qed.

Lemma zero_insurance_input_becomes_default_witness :
  exists st',
    saveSettingsFromForm (initial nothing_stored)
      {| stitch_rate_input := Some "0.50";
         applique_rate_input := Some "1.00";
         insurance_rate_input := Some "0" |} = Ok st'
    /\ insuranceRate (settings st') = lit_0_10
    /\ same_number (insuranceRate (settings st')) lit_0 = false.
Proof.
  apply (zero_insurance_input_becomes_default
           (initial nothing_stored)
           {| stitch_rate_input := Some "0.50";
              applique_rate_input := Some "1.00";
              insurance_rate_input := Some "0" |} "0").
  - reflexivity.
  - vm_compute; reflexivity.
Defined.

(** *** The admission of an order *)

Lemma validateInput_required_missing (input : Input) :
  required input = true ->
  value input = EmptyString \/ isNaN (parseFloat_str (value input)) = true ->
  fst (validateInput input) = false.
Proof.
  intros Hreq Hval. unfold validateInput. rewrite Hreq.
  rewrite andb_false_r. cbn [andb].
  assert (H : is_empty (value input) || isNaN (parseFloat_str (value input)) = true).
  { destruct Hval as [-> | ->]; [reflexivity | apply orb_true_r]. }
  rewrite H. reflexivity.
Qed.

Lemma validate_all_rejects (inputs : list Input) (input : Input) :
  In input inputs -> fst (validateInput input) = false ->
  fst (validate_all inputs) = false.
Proof.
  induction inputs as [ | i rest IH]; intros Hin Hbad; [contradiction | ].
  simpl. destruct Hin as [-> | Hin].
  - destruct (validateInput input) as [ok evs]. simpl in Hbad. subst ok.
    destruct (validate_all rest). reflexivity.
  - specialize (IH Hin Hbad).
    destruct (validateInput i) as [ok evs].
    destruct (validate_all rest) as [oks evss]. simpl in *. subst oks.
    apply andb_false_r.
Qed.

Lemma validateInput_shows_no_results (input : Input) (r : PriceBreakdown) (d : OrderInput) :
  ~ In (DisplayResults r d) (snd (validateInput input)).
Proof.
  unfold validateInput.
  repeat match goal with
         | |- context [if ?b then _ else _] => destruct b
         end;
    simpl; intuition discriminate.
Qed.

Lemma validate_all_shows_no_results (inputs : list Input) (r : PriceBreakdown) (d : OrderInput) :
  ~ In (DisplayResults r d) (snd (validate_all inputs)).
Proof.
  induction inputs as [ | i rest IH]; simpl; [tauto | ].
  pose proof (validateInput_shows_no_results i r d) as Hi.
  destruct (validateInput i) as [ok evs].
  destruct (validate_all rest) as [oks evss]. simpl in *.
  intro H. apply in_app_or in H. tauto.
Qed.

(** C9.  When the stitches input, a required field of the order form, is
    empty or does not parse to a Number, [getFormData] rejects the request
    (it returns [null] and asks to correct the errors) and
    [calculatePrice] displays no results: [performCalculations] is not
    run, and no order with stitches defaulted to 0 is built. *)
Theorem missing_stitches_rejected (st : State) (form : Form) (input : Input) :
  In input (number_inputs form) ->
  name input = "stitches" ->
  required input = true ->
  value input = EmptyString \/ isNaN (parseFloat_str (value input)) = true ->
  fst (getFormData form) = None
  /\ exists evs,
      ui (calculatePrice st form) = (ui st ++ evs)%list
      /\ In (ShowError "Please correct the errors above before calculating.") evs
      /\ forall r d, ~ In (DisplayResults r d) evs.
Proof.
  intros Hin _ Hreq Hval.
  pose proof (validate_all_rejects _ _ Hin
                (validateInput_required_missing _ Hreq Hval)) as Hall.
  pose proof (validate_all_shows_no_results (number_inputs form)) as Hno.
  unfold calculatePrice, getFormData.
  destruct (validate_all (number_inputs form)) as [ok evs].
  simpl in Hall. subst ok. simpl.
  split; [reflexivity | ].
  exists ([ShowLoading true] ++ (evs ++ [ShowError "Please correct the errors above before calculating."])
            ++ [ShowLoading false])%list.
  split; [ | split].
  - rewrite <- !app_assoc. reflexivity.
  - simpl. right. apply in_or_app. left. apply in_or_app. right. left. reflexivity.
  - intros r d H. simpl in H. destruct H as [H | H]; [discriminate | ].
    apply in_app_or in H. destruct H as [H | H].
    + apply in_app_or in H. destruct H as [H | H].
      * exact (Hno r d H).
      * simpl in H. destruct H as [H | []]. discriminate.
    + simpl in H. destruct H as [H | []]. discriminate.
Qed.

Lemma missing_stitches_rejected_witness :
  let stitches_input :=
    {| name := "stitches"; value := "abc"; required := true; min := "0"; max := EmptyString |} in
  let form :=
    {| number_inputs := [stitches_input];
       entries := [("stitches", "abc"); ("items", "2")] |} in
  fst (getFormData form) = None
  /\ exists evs,
      ui (calculatePrice (initial nothing_stored) form)
      = (ui (initial nothing_stored) ++ evs)%list
      /\ In (ShowError "Please correct the errors above before calculating.") evs
      /\ forall r d, ~ In (DisplayResults r d) evs.
Proof.
  intros stitches_input form.
  apply (missing_stitches_rejected (initial nothing_stored) form stitches_input).
  - left; reflexivity.
  - reflexivity.
  - reflexivity.
  - right. vm_compute; reflexivity.
Defined.

(** *** Loading the settings *)

Lemma constructor_unfold (sto : Storage) : constructor sto = loadSettings (initial sto).
Proof. reflexivity. Qed.

(** Nothing to read: [loadSettings] leaves the state as it is. *)
Lemma loadSettings_nothing (st : State) :
  access_denied (storage st) = false ->
  entry (storage st) = None \/ entry (storage st) = Some EmptyString ->
  loadSettings st = st.
Proof.
  intros Hacc Hentry. unfold loadSettings, loadSettings_try, getItem.
  rewrite Hacc. simpl. destruct Hentry as [-> | ->]; reflexivity.
Qed.

(** The text cannot be parsed, or is [null]: the [catch] runs. *)
Lemma loadSettings_catch (st : State) (text : string) :
  access_denied (storage st) = false ->
  entry (storage st) = Some text ->
  is_empty text = false ->
  (exists e, JSON_parse text = Throw e) \/ JSON_parse text = Ok VNull ->
  loadSettings st
  = saveSettings (emit [ConsoleWarn "Failed to load settings from localStorage:"] st).
Proof.
  intros Hacc Hentry Hne Hparse. unfold loadSettings, loadSettings_try, getItem.
  rewrite Hacc. simpl. rewrite Hentry, Hne.
  destruct Hparse as [[e ->] | ->]; reflexivity.
Qed.

(** The text is parsed and each setting is read as a Number: the three
    decisions of [validateNumber] become the settings. *)
Lemma loadSettings_parsed (st : State) (text : string) (parsed : jsval)
      (num : field -> number) :
  access_denied (storage st) = false ->
  entry (storage st) = Some text ->
  is_empty text = false ->
  JSON_parse text = Ok parsed ->
  (forall f, field_number parsed f = Ok (num f)) ->
  loadSettings st
  = with_settings {| stitchRate := decide StitchRate (num StitchRate);
                     appliqueRate := decide AppliqueRate (num AppliqueRate);
                     insuranceRate := decide InsuranceRate (num InsuranceRate) |} st.
Proof.
  intros Hacc Hentry Hne Hparse Hnum.
  unfold loadSettings, loadSettings_try, getItem.
  rewrite Hacc. simpl. rewrite Hentry, Hne, Hparse. simpl.
  pose proof (Hnum StitchRate) as H1.
  pose proof (Hnum AppliqueRate) as H2.
  pose proof (Hnum InsuranceRate) as H3.
  unfold field_number in H1, H2, H3.
  apply bind_Ok in H1. destruct H1 as [p1 [G1 P1]].
  apply bind_Ok in H2. destruct H2 as [p2 [G2 P2]].
  apply bind_Ok in H3. destruct H3 as [p3 [G3 P3]].
  simpl field_name in G1, G2, G3.
  rewrite G1. simpl bind.
  rewrite (validateNumber_parsed p1 _ _ _ _ P1). simpl bind.
  rewrite G2. simpl bind.
  rewrite (validateNumber_parsed p2 _ _ _ _ P2). simpl bind.
  rewrite G3. simpl bind.
  rewrite (validateNumber_parsed p3 _ _ _ _ P3). simpl bind.
  reflexivity.
Qed.

Lemma decide_out_of_range (f : field) (x : number) :
  out_of_range (field_min f) (field_max f) x -> decide f x = field_default f.
Proof.
  unfold decide. intros [H | [H | H]].
  - destruct x as [s | s | | s m e]; try discriminate H.
    + destruct s, f; reflexivity.
    + reflexivity.
  - rewrite H, orb_true_r. reflexivity.
  - rewrite H, orb_true_r. reflexivity.
Qed.

Lemma decide_in_range (f : field) (x : number) :
  in_range (field_min f) (field_max f) x -> decide f x = x.
Proof.
  unfold decide. intros [Hlo Hhi].
  rewrite (le_lt_false _ _ Hlo), (le_gt_false _ _ Hhi), (le_not_NaN_l _ _ Hhi).
  reflexivity.
Qed.

Lemma validateNumber_undefined (f : field) :
  validateNumber VUndefined (field_default f) (field_min f) (field_max f)
  = Ok (field_default f).
Proof. destruct f; vm_compute; reflexivity. Qed.

Lemma field_number_undefined (parsed : jsval) (f : field) :
  get parsed (field_name f) = Ok VUndefined -> field_number parsed f = Ok NaN.
Proof. intro H. unfold field_number. rewrite H. vm_compute. reflexivity. Qed.

Lemma saveSettings_storage (st : State) :
  storage (saveSettings st)
  = if access_denied (storage st) || quota_exceeded (storage st)
    then storage st
    else {| entry := Some (JSON_stringify (settings_members (settings st)));
            access_denied := access_denied (storage st);
            quota_exceeded := quota_exceeded (storage st) |}.
Proof.
  unfold saveSettings, setItem.
  destruct (access_denied (storage st) || quota_exceeded (storage st)); reflexivity.
Qed.

Lemma absent_entry_not_healed : ~ load_heals nothing_stored.
Proof.
  unfold load_heals. intros [_ H].
  rewrite constructor_unfold in H.
  rewrite (loadSettings_nothing (initial nothing_stored)) in H;
    [ | reflexivity | left; reflexivity].
  rewrite saveSettings_storage in H. simpl in H. discriminate H.
Qed.

(** C3, as the code has it.  With a readable storage: when the entry is
    absent or empty, the constructor ends with the default settings and
    writes nothing; when the text is not JSON, or is [null], it ends with
    the default settings and saves them back; when the text is a JSON
    value without the three settings, it ends with the default settings
    and writes nothing. *)
Theorem load_fallback (sto : Storage) :
  access_denied sto = false ->
  (entry sto = None \/ entry sto = Some EmptyString -> constructor sto = initial sto)
  /\ (forall text,
        entry sto = Some text -> is_empty text = false ->
        (exists e, JSON_parse text = Throw e) \/ JSON_parse text = Ok VNull ->
        load_heals sto
        /\ (quota_exceeded sto = false ->
            entry (storage (constructor sto))
            = Some (JSON_stringify (settings_members default_settings))))
  /\ (forall text parsed,
        entry sto = Some text -> is_empty text = false ->
        JSON_parse text = Ok parsed ->
        (forall f, get parsed (field_name f) = Ok VUndefined) ->
        constructor sto = initial sto).
Proof.
  intro Hacc. split; [ | split].
  - intro Hentry. rewrite constructor_unfold.
    apply loadSettings_nothing; assumption.
  - intros text Hentry Hne Hparse.
    assert (Hc : constructor sto
                 = saveSettings (emit [ConsoleWarn "Failed to load settings from localStorage:"]
                                      (initial sto))).
    { rewrite constructor_unfold. apply (loadSettings_catch _ text); assumption. }
    split; [split | ].
    + rewrite Hc, saveSettings_settings. reflexivity.
    + rewrite Hc, !saveSettings_storage. reflexivity.
    + intro Hq. rewrite Hc, saveSettings_storage. simpl.
      rewrite Hacc, Hq. reflexivity.
  - intros text parsed Hentry Hne Hparse Hshape. rewrite constructor_unfold.
    rewrite (loadSettings_parsed (initial sto) text parsed (fun _ => NaN));
      try assumption.
    + reflexivity.
    + intro f. apply field_number_undefined, Hshape.
Qed.

Lemma load_fallback_witness :
  load_heals (stored "{stitchRate: 0.75")
  /\ entry (storage (constructor (stored "{stitchRate: 0.75")))
     = Some (JSON_stringify (settings_members default_settings))
  /\ constructor (stored "[]") = initial (stored "[]").
Proof.
  destruct (load_fallback (stored "{stitchRate: 0.75") eq_refl) as (_ & Hbad & _).
  destruct (load_fallback (stored "[]") eq_refl) as (_ & _ & Hshape).
  assert (Hparse : (exists e, JSON_parse "{stitchRate: 0.75" = Throw e)
                   \/ JSON_parse "{stitchRate: 0.75" = Ok VNull).
  { left. exists SyntaxError. vm_compute. reflexivity. }
  destruct (Hbad "{stitchRate: 0.75" eq_refl eq_refl Hparse) as [Hheal Hsaved].
  split; [exact Hheal | split; [exact (Hsaved eq_refl) | ]].
  apply (Hshape "[]" (VArr [])); reflexivity.
Defined.

Lemma toString_field_counterexample :
  let text := record_text "2" ("{" ++ quoted "toString" ++ ":1}") "0.2" in
  (exists parsed,
      JSON_parse text = Ok parsed
      /\ corrupt parsed AppliqueRate
      /\ valid parsed StitchRate (of_decimal false 2 0)
      /\ valid parsed InsuranceRate (of_decimal false 2 (-1)))
  /\ settings (constructor (stored text)) = default_settings
  /\ entry (storage (constructor (stored text)))
     = Some (JSON_stringify (settings_members default_settings))
  /\ ~ field_isolation.
Proof.
  intro text.
  assert (Hparse : exists parsed,
             JSON_parse text = Ok parsed
             /\ corrupt parsed AppliqueRate
             /\ valid parsed StitchRate (of_decimal false 2 0)
             /\ valid parsed InsuranceRate (of_decimal false 2 (-1))).
  { eexists. split; [vm_compute; reflexivity | ].
    split; [exact I | ].
    split; (split; [ | split; [ | split]]); vm_compute; reflexivity. }
  split; [exact Hparse | ].
  split; [vm_compute; reflexivity | ].
  split; [vm_compute; reflexivity | ].
  intro H. destruct Hparse as (parsed & Hp & Hbad & H1 & H3).
  specialize (H text parsed AppliqueRate
                (fun f => match f with
                          | InsuranceRate => of_decimal false 2 (-1)
                          | _ => of_decimal false 2 0
                          end) Hp Hbad).
  assert (Hgood : forall f, f <> AppliqueRate ->
            valid parsed f (match f with
                            | InsuranceRate => of_decimal false 2 (-1)
                            | _ => of_decimal false 2 0
                            end)).
  { intros f Hf. destruct f; [exact H1 | contradiction Hf; reflexivity | exact H3]. }
  specialize (H Hgood StitchRate).
  vm_compute in H. discriminate H.
Qed.

(** C4, as the code has it.  When the stored text parses and each of the
    three settings is read by [parseFloat] without throwing (none is an
    object with a property [toString] of its own, nor an array that holds
    one): if exactly one of them reads as a Number that is not finite or
    is out of its range, while the other two read as finite Numbers within
    their ranges, the constructor ends with the default for the former and
    with the Numbers read for the latter; nothing is written. *)
Theorem load_field_isolation (sto : Storage) (text : string) (parsed : jsval)
        (num : field -> number) (bad : field) :
  access_denied sto = false ->
  entry sto = Some text ->
  is_empty text = false ->
  JSON_parse text = Ok parsed ->
  (forall f, field_number parsed f = Ok (num f)) ->
  out_of_range (field_min bad) (field_max bad) (num bad) ->
  (forall f, f <> bad ->
     is_finite (num f) = true /\ in_range (field_min f) (field_max f) (num f)) ->
  (forall f, field_of f (settings (constructor sto))
             = if field_eqb f bad then field_default f else num f)
  /\ storage (constructor sto) = sto.
Proof.
  intros Hacc Hentry Hne Hparse Hnum Hbad Hgood.
  rewrite constructor_unfold.
  rewrite (loadSettings_parsed (initial sto) text parsed num Hacc Hentry Hne Hparse Hnum).
  split; [ | reflexivity].
  intro f.
  assert (Hf : field_of f (settings (with_settings
                 {| stitchRate := decide StitchRate (num StitchRate);
                    appliqueRate := decide AppliqueRate (num AppliqueRate);
                    insuranceRate := decide InsuranceRate (num InsuranceRate) |}
                 (initial sto))) = decide f (num f)) by (destruct f; reflexivity).
  rewrite Hf.
  destruct (field_eqb f bad) eqn:E.
  - assert (f = bad) by (destruct f, bad; try discriminate E; reflexivity).
    subst f. apply decide_out_of_range. exact Hbad.
  - apply decide_in_range. apply Hgood.
    intro Heq. subst f. destruct bad; discriminate E.
Qed.

Lemma load_field_isolation_witness :
  let sto := stored (record_text "99" "2" "0.2") in
  (forall f, field_of f (settings (constructor sto))
             = if field_eqb f StitchRate then field_default f
               else match f with
                    | StitchRate => of_decimal false 99 0
                    | AppliqueRate => of_decimal false 2 0
                    | InsuranceRate => of_decimal false 2 (-1)
                    end)
  /\ storage (constructor sto) = sto.
Proof.
  intro sto.
  assert (Hparse : exists parsed, JSON_parse (record_text "99" "2" "0.2") = Ok parsed
            /\ forall f, field_number parsed f
                         = Ok match f with
                              | StitchRate => of_decimal false 99 0
                              | AppliqueRate => of_decimal false 2 0
                              | InsuranceRate => of_decimal false 2 (-1)
                              end).
  { eexists. split; [vm_compute; reflexivity | ].
    intro f. destruct f; vm_compute; reflexivity. }
  destruct Hparse as (parsed & Hparse & Hnum).
  apply (load_field_isolation sto (record_text "99" "2" "0.2") parsed _ StitchRate
           eq_refl eq_refl eq_refl Hparse Hnum).
  - right. right. vm_compute. reflexivity.
  - intros f Hf. destruct f; [contradiction Hf; reflexivity | | ];
      (split; [ | split]); vm_compute; reflexivity.
Defined.

(** *** The two validation paths *)

Lemma load_validation_decide (f : field) (raw : jsval) (x : number) :
  parseFloat raw = Ok x -> load_validation f raw = Ok (decide f x).
Proof. intro H. unfold load_validation. rewrite (validateNumber_parsed _ _ _ _ _ H). reflexivity. Qed.

Lemma or_else_truthy (y d : number) :
  isNaN y = false -> is_zero y = false -> or_else y d = y.
Proof. intros Hn Hz. unfold or_else, truthy. rewrite Hn, Hz. reflexivity. Qed.

Lemma default_prints_back (f : field) : prints_back (field_default f).
Proof. destruct f; vm_compute; reflexivity. Qed.

Lemma decide_default (f : field) : decide f (field_default f) = field_default f.
Proof. destruct f; reflexivity. Qed.

Lemma decide_NaN (f : field) : decide f NaN = field_default f.
Proof. reflexivity. Qed.

Lemma insurance_percent_counterexample :
  insuranceRate (settings (constructor
                   (stored (record_text (quoted "5") (quoted "5") (quoted "50")))))
  = lit_0_10
  /\ (exists st',
        saveSettingsFromForm (initial nothing_stored)
          {| stitch_rate_input := Some "5";
             applique_rate_input := Some "5";
             insurance_rate_input := Some "50" |} = Ok st'
        /\ insuranceRate (settings st') = lit_0_50)
  /\ ~ one_policy.
Proof.
  split; [vm_compute; reflexivity | split].
  - eexists. split; [apply saveSettingsFromForm_Ok | vm_compute; reflexivity].
  - intro H. specialize (H InsuranceRate (VStr "50")).
    vm_compute in H. discriminate H.
Qed.

(** C7, as the code has it.  Both paths end in [validateNumber] with the
    default and the bounds of the setting, on different arguments.  The
    load path applies it to the raw value.  The save path applies it to
    the Number [y || default], where [y] is the Number parsed from the raw
    value, divided by 100 for the insurance rate.  So, for every setting
    and every raw string: the save path has the outcome the load path has
    on the Number [y || default]; when [y] is not zero, that is the
    outcome the load path has on [y]; and when moreover [y] prints back
    (Number::toString, then [parseFloat], give [y]), that outcome is the
    decision of [validateNumber] on [y], and for stitchRate and
    appliqueRate both paths have the same outcome on the raw string. *)
Theorem validation_paths (f : field) (raw : string) :
  let x := parseFloat_str raw in
  let y := form_number f x in
  load_validation f (VStr raw) = Ok (decide f x)
  /\ form_validation f (VStr raw)
     = load_validation f (VNum (or_else y (field_default f)))
  /\ (is_zero y = false ->
      form_validation f (VStr raw) = load_validation f (VNum y))
  /\ (is_zero y = false ->
      prints_back y ->
      form_validation f (VStr raw) = Ok (decide f y)
      /\ (f <> InsuranceRate ->
          form_validation f (VStr raw) = load_validation f (VStr raw))).
Proof.
  intros x y.
  assert (Hload : load_validation f (VStr raw) = Ok (decide f x))
    by (apply load_validation_decide; reflexivity).
  assert (Hform : form_validation f (VStr raw)
                  = load_validation f (VNum (or_else y (field_default f))))
    by reflexivity.
  assert (Hnz : is_zero y = false ->
                form_validation f (VStr raw) = load_validation f (VNum y)).
  { intro Hz. rewrite Hform.
    destruct (isNaN y) eqn:Hn.
    - destruct y; try discriminate Hn.
      change (or_else S754_nan (field_default f)) with (field_default f).
      rewrite (load_validation_decide f (VNum (field_default f)) (field_default f)).
      + destruct f; reflexivity.
      + rewrite parseFloat_number, (default_prints_back f). reflexivity.
    - rewrite (or_else_truthy _ _ Hn Hz). reflexivity. }
  split; [exact Hload | split; [exact Hform | split; [exact Hnz | ]]].
  intros Hz Hp.
  assert (Hy : form_validation f (VStr raw) = Ok (decide f y)).
  { rewrite (Hnz Hz). apply load_validation_decide.
    rewrite parseFloat_number, Hp. reflexivity. }
  split; [exact Hy | ].
  intro Hf. rewrite Hy, Hload.
  destruct f; try reflexivity. contradiction Hf. reflexivity.
Qed.

Lemma validation_paths_witness :
  form_validation StitchRate (VStr "2.5") = load_validation StitchRate (VStr "2.5")
  /\ form_validation InsuranceRate (VStr "50")
     = load_validation InsuranceRate (VNum (div (parseFloat_str "50") lit_100))
  /\ form_validation InsuranceRate (VStr "1e-323")
     = load_validation InsuranceRate (VNum lit_0_10).
Proof.
  destruct (validation_paths StitchRate "2.5") as (_ & _ & _ & H1).
  destruct (validation_paths InsuranceRate "50") as (_ & _ & H2 & _).
  destruct (validation_paths InsuranceRate "1e-323") as (_ & H3 & _).
  split; [ | split].
  - apply H1; [vm_compute; reflexivity | vm_compute; reflexivity | discriminate].
  - apply H2. vm_compute. reflexivity.
  - exact H3.
Defined.

(** *** Saving and loading again *)

Lemma loadSettings_storage_write_fails (st : State) :
  access_denied (storage st) || quota_exceeded (storage st) = true ->
  storage (loadSettings st) = storage st.
Proof.
  intro Hw. unfold loadSettings.
  destruct (loadSettings_try st) as [st' | e] eqn:Htry.
  - apply loadSettings_try_Ok in Htry.
    destruct Htry as [-> | (v1 & v2 & v3 & r1 & r2 & r3 & _ & _ & _ & ->)]; reflexivity.
  - rewrite saveSettings_storage. simpl. rewrite Hw. reflexivity.
Qed.

Lemma loadSettings_flags (st : State) :
  access_denied (storage (loadSettings st)) = access_denied (storage st)
  /\ quota_exceeded (storage (loadSettings st)) = quota_exceeded (storage st).
Proof.
  unfold loadSettings.
  destruct (loadSettings_try st) as [st' | e] eqn:Htry.
  - apply loadSettings_try_Ok in Htry.
    destruct Htry as [-> | (v1 & v2 & v3 & r1 & r2 & r3 & _ & _ & _ & ->)];
      split; reflexivity.
  - rewrite saveSettings_storage. simpl.
    destruct (access_denied (storage st) || quota_exceeded (storage st));
      split; reflexivity.
Qed.

Lemma reads_as_field (parsed : jsval) (f : field) (x : number) :
  reads_as parsed (field_name f) x = true ->
  exists y, field_number parsed f = Ok y /\ same_number y x = true.
Proof.
  unfold reads_as, field_number.
  destruct (get parsed (field_name f)) as [p | e]; [ | discriminate].
  simpl. destruct (parseFloat p) as [y | e]; [ | discriminate].
  intro H. exists y. split; [reflexivity | exact H].
Qed.

Lemma decide_same (f : field) (y x : number) :
  same_number y x = true ->
  in_range (field_min f) (field_max f) x ->
  decide f y = y.
Proof.
  unfold same_number. intros Hs [Hlo Hhi]. unfold decide.
  destruct (same_number_isNaN _ _ Hs) as [Hy _]. rewrite Hy.
  assert (Hl : lt y (field_min f) = false).
  { unfold lt, SFltb. rewrite (same_number_compare_l y x _ Hs).
    exact (le_lt_false _ _ Hlo). }
  assert (Hg : gt y (field_max f) = false).
  { unfold gt, SFltb. rewrite (same_number_compare_r y x _ Hs).
    exact (le_gt_false _ _ Hhi). }
  rewrite Hl, Hg. reflexivity.
Qed.

Lemma in_range_same (f : field) (s : Settings) :
  settings_in_range s -> same_number (field_of f s) (field_of f s) = true.
Proof.
  intro H. apply same_number_refl.
  exact (le_not_NaN_l _ _ (proj2 (H f))).
Qed.

Lemma JSON_stringify_not_empty (l : list (string * number)) :
  is_empty (JSON_stringify l) = false.
Proof. reflexivity. Qed.

(** What [reads_back] says, setting by setting. *)
Lemma reads_back_fields (s : Settings) :
  reads_back s = true ->
  exists parsed num,
    JSON_parse (JSON_stringify (settings_members s)) = Ok parsed
    /\ forall f, field_number parsed f = Ok (num f)
                 /\ same_number (num f) (field_of f s) = true.
Proof.
  unfold reads_back.
  destruct (JSON_parse (JSON_stringify (settings_members s))) as [parsed | e];
    [ | discriminate].
  intro Hrb.
  apply andb_prop in Hrb. destruct Hrb as [Hrb R3].
  apply andb_prop in Hrb. destruct Hrb as [R1 R2].
  destruct (reads_as_field parsed StitchRate _ R1) as (y1 & N1 & S1).
  destruct (reads_as_field parsed AppliqueRate _ R2) as (y2 & N2 & S2).
  destruct (reads_as_field parsed InsuranceRate _ R3) as (y3 & N3 & S3).
  exists parsed.
  exists (fun f => match f with
                   | StitchRate => y1
                   | AppliqueRate => y2
                   | InsuranceRate => y3
                   end).
  split; [reflexivity | ].
  intro f. destruct f; split; assumption.
Qed.

Lemma loaded_field (st : State) (num : field -> number) (f : field) :
  field_of f (settings (with_settings
                {| stitchRate := decide StitchRate (num StitchRate);
                   appliqueRate := decide AppliqueRate (num AppliqueRate);
                   insuranceRate := decide InsuranceRate (num InsuranceRate) |} st))
  = decide f (num f).
Proof. destruct f; reflexivity. Qed.

(** The text of valid settings, once the runtime reads it back as their
    Numbers, loads as those settings. *)
Lemma reload_saved (s : Settings) (sto : Storage) :
  access_denied sto = false ->
  entry sto = Some (JSON_stringify (settings_members s)) ->
  settings_in_range s ->
  reads_back s = true ->
  same_settings (settings (constructor sto)) s.
Proof.
  intros Hacc Hentry Hs Hrb.
  destruct (reads_back_fields s Hrb) as (parsed & num & Hp & Hnum).
  rewrite constructor_unfold.
  rewrite (loadSettings_parsed (initial sto) (JSON_stringify (settings_members s))
             parsed num Hacc Hentry (JSON_stringify_not_empty _) Hp
             (fun f => proj1 (Hnum f))).
  intro f. rewrite loaded_field.
  rewrite (decide_same f (num f) _ (proj2 (Hnum f)) (Hs f)).
  exact (proj2 (Hnum f)).
Qed.

(* ================================================================= *)
(** ** The order form, beyond the required field *)

Lemma or_else_not_NaN (x d : number) : isNaN d = false -> isNaN (or_else x d) = false.
Proof.
  intro Hd. unfold or_else, truthy.
  destruct (isNaN x) eqn:Hx; simpl; [exact Hd | ].
  destruct (is_zero x); simpl; [exact Hd | exact Hx].
Qed.

Lemma or_else_truthy_default (x d : number) : truthy d = true -> truthy (or_else x d) = true.
Proof.
  intro Hd. unfold or_else. destruct (truthy x) eqn:Hx; assumption.
Qed.

Lemma or_else_falsy (x d : number) : truthy x = false -> or_else x d = d.
Proof. intro H. unfold or_else. rewrite H. reflexivity. Qed.

(** A value that [validateInput] accepts, when it is not empty and parses to
    a Number, lies between the bounds of the input: its [min] attribute, or
    0 when that is missing or zero, and its [max] attribute, or
    [Number.MAX_VALUE] when that is missing or zero. *)
Theorem validateInput_accepted_in_bounds (input : Input) :
  fst (validateInput input) = true ->
  is_empty (value input) = false ->
  isNaN (parseFloat_str (value input)) = false ->
  in_range (input_min input) (input_max input) (parseFloat_str (value input)).
Proof.
  unfold validateInput, input_min, input_max. intros Hok Hne Hnum.
  rewrite Hne, Hnum in Hok. cbn [andb orb negb] in Hok.
  rewrite andb_false_r in Hok. cbn [andb] in Hok.
  set (lo := or_else (parseFloat_str (min input)) lit_0) in *.
  set (hi := or_else (parseFloat_str (max input)) MAX_VALUE) in *.
  assert (Hlo : isNaN lo = false) by (apply or_else_not_NaN; reflexivity).
  assert (Hhi : isNaN hi = false) by (apply or_else_not_NaN; reflexivity).
  destruct (lt (parseFloat_str (value input)) lo) eqn:Hl; [discriminate Hok | ].
  destruct (gt (parseFloat_str (value input)) hi) eqn:Hg; [discriminate Hok | ].
  split; [apply lt_false_le | apply gt_false_le]; assumption.
Qed.

Lemma validateInput_accepted_in_bounds_witness :
  let input := {| name := "items"; value := "3"; required := false;
                  min := "1"; max := "1000" |} in
  in_range (input_min input) (input_max input) (parseFloat_str (value input)).
Proof.
  intro input. apply (validateInput_accepted_in_bounds input);
    vm_compute; reflexivity.
Defined.

(** [validateInput] shows an error under the input exactly when it rejects
    it: an accepted input has its error cleared and nothing else, a rejected
    one has its error cleared and then one message. *)
Theorem validateInput_error_shown (input : Input) :
  (fst (validateInput input) = true
   /\ snd (validateInput input) = [ClearInputError (name input)])
  \/ (fst (validateInput input) = false
      /\ exists msg, snd (validateInput input)
                     = [ClearInputError (name input); ShowInputError (name input) msg]).
Proof.
  unfold validateInput.
  destruct (is_empty (value input) && negb (required input)); [left; split; reflexivity | ].
  destruct (required input && (is_empty (value input) || isNaN (parseFloat_str (value input))));
    [right; split; [reflexivity | eexists; reflexivity] | ].
  match goal with
  | |- context [if ?b then _ else _] => destruct b
  end; [right; split; [reflexivity | eexists; reflexivity] | left; split; reflexivity].
Qed.

(** A [max] attribute that is zero or not a number bounds nothing: the input
    is validated as if it had no [max] attribute at all. *)
Theorem validateInput_zero_max_ignored (input : Input) :
  truthy (parseFloat_str (max input)) = false ->
  validateInput input = validateInput (with_max EmptyString input).
Proof.
  intro H. unfold validateInput, with_max. cbn [name value required min max].
  rewrite (or_else_falsy _ MAX_VALUE H).
  reflexivity.
Qed.

Lemma validateInput_zero_max_ignored_witness :
  let input := {| name := "appliques"; value := "12"; required := false;
                  min := "0"; max := "0" |} in
  validateInput input = validateInput (with_max EmptyString input)
  /\ fst (validateInput input) = true.
Proof.
  intro input. split.
  - apply (validateInput_zero_max_ignored input). vm_compute. reflexivity.
  - vm_compute. reflexivity.
Defined.

Lemma validate_all_forallb (inputs : list Input) :
  fst (validate_all inputs) = forallb (fun input => fst (validateInput input)) inputs.
Proof.
  induction inputs as [ | i rest IH]; [reflexivity | ].
  simpl. destruct (validateInput i) as [ok evs].
  destruct (validate_all rest) as [oks evss]. simpl in *. rewrite IH. reflexivity.
Qed.

Lemma getFormData_validated (form : Form) :
  fst (getFormData form)
  = if fst (validate_all (number_inputs form))
    then Some {| stitches := int_field form "stitches" lit_0;
                 items := int_field form "items" lit_1;
                 appliques := int_field form "appliques" lit_0;
                 blankCost := float_field form "blankCost" lit_0;
                 designCost := float_field form "designCost" lit_0 |}
    else None.
Proof.
  unfold getFormData. destruct (validate_all (number_inputs form)) as [ok evs].
  destruct ok; reflexivity.
Qed.

(** [getFormData] returns [null] exactly when [validateInput] rejects one of
    the number inputs of the form: one rejected input, required or not,
    blocks the whole request. *)
Theorem getFormData_null_iff (form : Form) :
  fst (getFormData form) = None
  <-> exists input, In input (number_inputs form) /\ fst (validateInput input) = false.
Proof.
  rewrite getFormData_validated, validate_all_forallb.
  destruct (forallb (fun input => fst (validateInput input)) (number_inputs form)) eqn:H.
  - split; [discriminate | ].
    intros (input & Hin & Hbad).
    rewrite forallb_forall in H. rewrite (H input Hin) in Hbad. discriminate Hbad.
  - split; [intros _ | reflexivity].
    assert (Hex : existsb (fun input => negb (fst (validateInput input)))
                          (number_inputs form) = true).
    { clear - H. induction (number_inputs form) as [ | i rest IH]; [discriminate H | ].
      simpl in *. destruct (fst (validateInput i)); simpl in *; auto. }
    apply existsb_exists in Hex. destruct Hex as (input & Hin & Hneg).
    exists input. split; [exact Hin | ].
    destruct (fst (validateInput input)); [discriminate Hneg | reflexivity].
Qed.

Lemma int_field_or_else (form : Form) (key : string) (d : number) :
  exists x, int_field form key d = or_else x d.
Proof.
  unfold int_field. destruct (parseInt (FormData_get (entries form) key)) as [x | e].
  - exists x. reflexivity.
  - exists NaN. reflexivity.
Qed.

Lemma float_field_or_else (form : Form) (key : string) (d : number) :
  exists x, float_field form key d = or_else x d.
Proof.
  unfold float_field. destruct (parseFloat (FormData_get (entries form) key)) as [x | e].
  - exists x. reflexivity.
  - exists NaN. reflexivity.
Qed.

(** No field of an order that [getFormData] returns is [NaN], and its number
    of items is neither [NaN] nor zero: the [|| 0] and [|| 1] of the source
    replace every value that does not parse. *)
Theorem getFormData_order_numbers (form : Form) (order : OrderInput) :
  fst (getFormData form) = Some order ->
  isNaN (stitches order) = false
  /\ isNaN (appliques order) = false
  /\ isNaN (blankCost order) = false
  /\ isNaN (designCost order) = false
  /\ truthy (items order) = true.
Proof.
  rewrite getFormData_validated.
  destruct (fst (validate_all (number_inputs form))); [ | discriminate].
  intro H. injection H as <-. cbn [stitches appliques blankCost designCost items].
  destruct (int_field_or_else form "stitches" lit_0) as [x1 ->].
  destruct (int_field_or_else form "items" lit_1) as [x2 ->].
  destruct (int_field_or_else form "appliques" lit_0) as [x3 ->].
  destruct (float_field_or_else form "blankCost" lit_0) as [x4 ->].
  destruct (float_field_or_else form "designCost" lit_0) as [x5 ->].
  repeat split; try (apply or_else_not_NaN; reflexivity).
  apply or_else_truthy_default. reflexivity.
Qed.

Lemma getFormData_order_numbers_witness :
  let form := {| number_inputs := [{| name := "stitches"; value := "5000";
                                      required := true; min := "0"; max := EmptyString |}];
                 entries := [("stitches", "5000"); ("items", "abc"); ("blankCost", "x")] |} in
  exists order, fst (getFormData form) = Some order /\ truthy (items order) = true.
Proof.
  intro form. eexists. split; [vm_compute; reflexivity | ].
  apply (getFormData_order_numbers form); vm_compute; reflexivity.
Defined.

Lemma int_field_missing (form : Form) (key : string) (d : number) :
  missing form key -> int_field form key d = d.
Proof. unfold int_field. intros [-> | ->]; reflexivity. Qed.

Lemma float_field_missing (form : Form) (key : string) (d : number) :
  missing form key -> float_field form key d = d.
Proof. unfold float_field. intros [-> | ->]; reflexivity. Qed.

(** In an order that [getFormData] returns, a field whose entry is absent
    from the form data, or empty, has its default: 1 for the items, 0 for
    the stitches, the appliques, the blank cost and the design cost. *)
Theorem getFormData_defaults (form : Form) (order : OrderInput) :
  fst (getFormData form) = Some order ->
  (missing form "stitches" -> stitches order = lit_0)
  /\ (missing form "items" -> items order = lit_1)
  /\ (missing form "appliques" -> appliques order = lit_0)
  /\ (missing form "blankCost" -> blankCost order = lit_0)
  /\ (missing form "designCost" -> designCost order = lit_0).
Proof.
  rewrite getFormData_validated.
  destruct (fst (validate_all (number_inputs form))); [ | discriminate].
  intro H. injection H as <-. cbn [stitches appliques blankCost designCost items].
  repeat split; intro Hm;
    first [apply int_field_missing | apply float_field_missing]; exact Hm.
Qed.

Lemma getFormData_defaults_witness :
  let form := {| number_inputs := []; entries := [("stitches", "2000"); ("items", EmptyString)] |} in
  exists order, fst (getFormData form) = Some order
                /\ items order = lit_1 /\ designCost order = lit_0.
Proof.
  intro form. eexists. split; [vm_compute; reflexivity | ].
  destruct (getFormData_defaults form _ eq_refl) as (_ & Hitems & _ & _ & Hdesign).
  split; [apply Hitems | apply Hdesign].
  - right. reflexivity.
  - left. reflexivity.
Defined.

(** [calculatePrice] changes neither the settings nor the storage.  What it
    shows starts with the loading mark and ends with its removal, and the
    only results it can display in between are those [performCalculations]
    gives, with the settings in force, for the order [getFormData]
    returned. *)
Theorem calculatePrice_effects (st : State) (form : Form) :
  settings (calculatePrice st form) = settings st
  /\ storage (calculatePrice st form) = storage st
  /\ exists mid,
      ui (calculatePrice st form)
      = (ui st ++ [ShowLoading true] ++ mid ++ [ShowLoading false])%list
      /\ forall r d, In (DisplayResults r d) mid ->
                     fst (getFormData form) = Some d /\ r = performCalculations st d.
Proof.
  pose proof (validate_all_shows_no_results (number_inputs form)) as Hno.
  unfold calculatePrice, getFormData.
  destruct (validate_all (number_inputs form)) as [ok evs]. simpl in Hno.
  destruct ok; cbn [negb fst]; (split; [reflexivity | split; [reflexivity | ]]).
  - eexists (evs ++ [DisplayResults _ _; ShowResults true])%list. split.
    + cbn [ui emit]. rewrite <- !app_assoc. reflexivity.
    + intros r d H. apply in_app_or in H. destruct H as [H | H].
      * contradiction (Hno r d H).
      * simpl in H. destruct H as [H | [H | []]]; [ | discriminate H].
        injection H as <- <-. split; reflexivity.
  - exists (evs ++ [ShowError "Please correct the errors above before calculating."])%list.
    split.
    + cbn [ui emit]. rewrite <- !app_assoc. reflexivity.
    + intros r d H. apply in_app_or in H. destruct H as [H | H].
      * contradiction (Hno r d H).
      * simpl in H. destruct H as [H | []]. discriminate H.
Qed.

(* ================================================================= *)
(** ** Saving from the settings form *)

Lemma saveSettings_fails (st : State) :
  write_fails (storage st) = true ->
  saveSettings st
  = emit [ConsoleError "Failed to save settings:";
          ShowError "Settings could not be saved. Please check your browser settings."] st.
Proof.
  unfold write_fails, saveSettings, setItem. intros ->. reflexivity.
Qed.

Lemma saveSettings_writes (st : State) :
  write_fails (storage st) = false ->
  saveSettings st
  = with_storage {| entry := Some (JSON_stringify (settings_members (settings st)));
                    access_denied := access_denied (storage st);
                    quota_exceeded := quota_exceeded (storage st) |} st.
Proof.
  unfold write_fails, saveSettings, setItem. intros ->. reflexivity.
Qed.

(** When the storage cannot be written, [saveSettingsFromForm] still
    replaces the settings in memory, leaves the storage as it was, and shows
    the failure of the save followed, all the same, by the message that the
    settings were saved successfully. *)
Theorem saveSettingsFromForm_write_failure (st st' : State) (form : SettingsForm) :
  saveSettingsFromForm st form = Ok st' ->
  write_fails (storage st) = true ->
  storage st' = storage st
  /\ (forall f, field_of f (settings st') = form_result f (form_input f form))
  /\ ui st'
     = (ui st ++ [ConsoleError "Failed to save settings:";
                  ShowError "Settings could not be saved. Please check your browser settings.";
                  CloseSettingsModal;
                  ShowSuccess "Settings saved successfully!"])%list.
Proof.
  rewrite saveSettingsFromForm_Ok. intros H Hw. injection H as <-.
  rewrite saveSettings_fails by exact Hw.
  split; [reflexivity | split].
  - intro f. destruct f; reflexivity.
  - cbn [ui emit with_settings]. rewrite <- app_assoc. reflexivity.
Qed.

Lemma saveSettingsFromForm_write_failure_witness :
  let st := initial {| entry := None; access_denied := false; quota_exceeded := true |} in
  let form := {| stitch_rate_input := Some "0.75";
                 applique_rate_input := Some "1.50";
                 insurance_rate_input := Some "20" |} in
  exists st',
    saveSettingsFromForm st form = Ok st'
    /\ storage st' = storage st
    /\ In (ShowSuccess "Settings saved successfully!") (ui st').
Proof.
  intros st form. eexists. split; [apply saveSettingsFromForm_Ok | ].
  destruct (saveSettingsFromForm_write_failure st _ form (saveSettingsFromForm_Ok st form) eq_refl)
    as (Hsto & _ & Hui).
  split; [exact Hsto | ].
  rewrite Hui. apply in_or_app. right. simpl. tauto.
Defined.

(** When the storage can be written, [saveSettingsFromForm] leaves in the
    entry the text of the very settings it leaves in memory, and shows the
    success message only. *)
Theorem saveSettingsFromForm_stores_settings (st st' : State) (form : SettingsForm) :
  saveSettingsFromForm st form = Ok st' ->
  write_fails (storage st) = false ->
  entry (storage st') = Some (JSON_stringify (settings_members (settings st')))
  /\ ui st' = (ui st ++ [CloseSettingsModal;
                         ShowSuccess "Settings saved successfully!"])%list.
Proof.
  rewrite saveSettingsFromForm_Ok. intros H Hw. injection H as <-.
  rewrite saveSettings_writes by exact Hw.
  split; reflexivity.
Qed.

Lemma saveSettingsFromForm_stores_settings_witness :
  let form := {| stitch_rate_input := Some "0.75";
                 applique_rate_input := Some "1.50";
                 insurance_rate_input := Some "20" |} in
  exists st',
    saveSettingsFromForm (initial nothing_stored) form = Ok st'
    /\ entry (storage st') = Some (JSON_stringify (settings_members (settings st'))).
Proof.
  intro form. eexists. split; [apply saveSettingsFromForm_Ok | ].
  exact (proj1 (saveSettingsFromForm_stores_settings (initial nothing_stored) _ form
                  (saveSettingsFromForm_Ok (initial nothing_stored) form) eq_refl)).
Defined.

Lemma form_number_falsy (f : field) (x : number) :
  truthy x = false -> truthy (form_number f x) = false.
Proof.
  destruct f; try (intro H; exact H).
  unfold truthy. destruct x; try discriminate; intros _; reflexivity.
Qed.

(** An input of the settings form that is not in the page, is empty, does
    not parse to a Number, or parses to zero gives its setting the default:
    0.50 for the stitch rate, 1.00 for the applique rate, 0.10 for the
    insurance rate. *)
Theorem saveSettingsFromForm_falsy_input (st st' : State) (form : SettingsForm) (f : field) :
  saveSettingsFromForm st form = Ok st' ->
  truthy (input_number (form_input f form)) = false ->
  field_of f (settings st') = field_default f.
Proof.
  intros H Hfalsy. rewrite (saveSettingsFromForm_field st st' form f H).
  unfold form_result.
  rewrite (or_else_falsy _ _ (form_number_falsy f _ Hfalsy)).
  rewrite (default_prints_back f). apply decide_default.
Qed.

Lemma saveSettingsFromForm_falsy_input_witness :
  let form := {| stitch_rate_input := Some "0";
                 applique_rate_input := None;
                 insurance_rate_input := Some "abc" |} in
  exists st',
    saveSettingsFromForm (initial nothing_stored) form = Ok st'
    /\ settings st' = default_settings.
Proof.
  intro form. eexists. split; [apply saveSettingsFromForm_Ok | ].
  pose proof (saveSettingsFromForm_falsy_input (initial nothing_stored) _ form StitchRate
                (saveSettingsFromForm_Ok _ form) eq_refl) as H1.
  pose proof (saveSettingsFromForm_falsy_input (initial nothing_stored) _ form AppliqueRate
                (saveSettingsFromForm_Ok _ form) eq_refl) as H2.
  pose proof (saveSettingsFromForm_falsy_input (initial nothing_stored) _ form InsuranceRate
                (saveSettingsFromForm_Ok _ form) eq_refl) as H3.
  cbn [field_of field_default] in H1, H2, H3.
  match goal with
  | |- settings ?s = _ => destruct (settings s) as [a b c]
  end.
  cbn [stitchRate appliqueRate insuranceRate] in H1, H2, H3. subst a b c. reflexivity.
Defined.

(** Settings saved from the form survive a reload of the page: when the
    write succeeds and the runtime reads the text it wrote back as the
    Numbers saved, the constructor run on the storage left by
    [saveSettingsFromForm] ends with settings [===] to the saved ones. *)
Theorem saved_settings_reload (st st' : State) (form : SettingsForm) :
  saveSettingsFromForm st form = Ok st' ->
  write_fails (storage st) = false ->
  reads_back (settings st') = true ->
  same_settings (settings (constructor (storage st'))) (settings st').
Proof.
  intros H Hw Hrb.
  pose proof (saveSettingsFromForm_in_range st st' form H) as Hin.
  assert (Hacc : access_denied (storage st') = false
                 /\ entry (storage st') = Some (JSON_stringify (settings_members (settings st')))).
  { rewrite saveSettingsFromForm_Ok in H. injection H as <-.
    rewrite saveSettings_writes by exact Hw.
    unfold write_fails in Hw. apply orb_false_elim in Hw.
    split; [exact (proj1 Hw) | reflexivity]. }
  apply reload_saved; tauto.
Qed.

Lemma saved_settings_reload_witness :
  let form := {| stitch_rate_input := Some "0.75";
                 applique_rate_input := Some "1.50";
                 insurance_rate_input := Some "20" |} in
  exists st',
    saveSettingsFromForm (initial nothing_stored) form = Ok st'
    /\ same_settings (settings (constructor (storage st'))) (settings st').
Proof.
  intro form. eexists. split; [apply saveSettingsFromForm_Ok | ].
  apply (saved_settings_reload (initial nothing_stored) _ form
           (saveSettingsFromForm_Ok _ form) eq_refl).
  vm_compute. reflexivity.
Defined.

(* ================================================================= *)
(** ** The failures of a load *)

(** With a text that parses, the [try] block of [loadSettings] reads the
    three settings in turn and stops at the first that throws. *)
Lemma loadSettings_try_fields (st : State) (text : string) (parsed : jsval) :
  access_denied (storage st) = false ->
  entry (storage st) = Some text ->
  is_empty text = false ->
  JSON_parse text = Ok parsed ->
  loadSettings_try st
  = bind (field_number parsed StitchRate) (fun x1 =>
    bind (field_number parsed AppliqueRate) (fun x2 =>
    bind (field_number parsed InsuranceRate) (fun x3 =>
      Ok (with_settings {| stitchRate := decide StitchRate x1;
                           appliqueRate := decide AppliqueRate x2;
                           insuranceRate := decide InsuranceRate x3 |} st)))).
Proof.
  intros Hacc Hentry Hne Hparse.
  unfold loadSettings_try, getItem. rewrite Hacc. simpl bind.
  rewrite Hentry, Hne, Hparse. simpl bind.
  unfold field_number, validateNumber. simpl field_name.
  destruct (get parsed "stitchRate") as [p1 | e1]; simpl bind; [ | reflexivity].
  destruct (parseFloat p1) as [x1 | e1]; simpl bind; [ | reflexivity].
  destruct (get parsed "appliqueRate") as [p2 | e2]; simpl bind; [ | reflexivity].
  destruct (parseFloat p2) as [x2 | e2]; simpl bind; [ | reflexivity].
  destruct (get parsed "insuranceRate") as [p3 | e3]; simpl bind; [ | reflexivity].
  destruct (parseFloat p3) as [x3 | e3]; simpl bind; reflexivity.
Qed.

Lemma field_number_toString_object (parsed : jsval) (f : field)
      (props : list (string * jsval)) (w : jsval) :
  get parsed (field_name f) = Ok (VObj props) ->
  own_property "toString" props = Some w ->
  field_number parsed f = Throw TypeError.
Proof.
  intros Hget Hown. unfold field_number. rewrite Hget. simpl bind.
  unfold parseFloat. simpl ToString. rewrite Hown. reflexivity.
Qed.

(** A stored record in which one setting is an object with a property
    [toString] (a JSON object never holds a function, so the conversion to a
    string throws) is dropped as a whole: [loadSettings] keeps the settings
    in memory, the other two stored settings included, warns, and saves the
    settings in memory over the stored record. *)
Theorem loadSettings_unreadable_field (st : State) (text : string) (parsed : jsval)
        (f : field) (props : list (string * jsval)) (w : jsval) :
  access_denied (storage st) = false ->
  entry (storage st) = Some text ->
  is_empty text = false ->
  JSON_parse text = Ok parsed ->
  get parsed (field_name f) = Ok (VObj props) ->
  own_property "toString" props = Some w ->
  loadSettings st
  = saveSettings (emit [ConsoleWarn "Failed to load settings from localStorage:"] st)
  /\ settings (loadSettings st) = settings st
  /\ (quota_exceeded (storage st) = false ->
      entry (storage (loadSettings st))
      = Some (JSON_stringify (settings_members (settings st)))).
Proof.
  intros Hacc Hentry Hne Hparse Hget Hown.
  pose proof (field_number_toString_object parsed f props w Hget Hown) as Hthrow.
  assert (Hload : loadSettings st
                  = saveSettings (emit [ConsoleWarn "Failed to load settings from localStorage:"] st)).
  { unfold loadSettings.
    rewrite (loadSettings_try_fields st text parsed Hacc Hentry Hne Hparse).
    destruct f; rewrite ?Hthrow;
      repeat match goal with
             | |- context [bind (field_number ?p ?g) _] =>
                 destruct (field_number p g); simpl bind
             | H : field_number ?p ?g = Throw _ |- context [field_number ?p ?g] =>
                 rewrite H; simpl bind
             end; reflexivity. }
  split; [exact Hload | split].
  - rewrite Hload, saveSettings_settings. reflexivity.
  - intro Hq. rewrite Hload, saveSettings_storage. cbn [storage settings emit].
    rewrite Hacc, Hq. reflexivity.
Qed.

Lemma loadSettings_unreadable_field_witness :
  let text := record_text "2" ("{" ++ quoted "toString" ++ ":1}") "0.2" in
  settings (constructor (stored text)) = default_settings
  /\ entry (storage (constructor (stored text)))
     = Some (JSON_stringify (settings_members default_settings)).
Proof.
  intro text.
  destruct (loadSettings_unreadable_field (initial (stored text)) text
              (VObj [("stitchRate", VNum (of_decimal false 2 0));
                     ("appliqueRate", VObj [("toString", VNum (of_decimal false 1 0))]);
                     ("insuranceRate", VNum (of_decimal false 2 (-1)))])
              AppliqueRate [("toString", VNum (of_decimal false 1 0))]
              (VNum (of_decimal false 1 0))
              eq_refl eq_refl eq_refl)
    as (_ & Hs & He); try (vm_compute; reflexivity).
  split; [exact Hs | exact (He eq_refl)].
Defined.

(** When [localStorage] cannot be accessed, [loadSettings] keeps the
    settings in memory and the storage, and shows, after its warning, the
    failure of the save its [catch] attempts. *)
Theorem loadSettings_access_denied (st : State) :
  access_denied (storage st) = true ->
  settings (loadSettings st) = settings st
  /\ storage (loadSettings st) = storage st
  /\ ui (loadSettings st)
     = (ui st ++ [ConsoleWarn "Failed to load settings from localStorage:";
                  ConsoleError "Failed to save settings:";
                  ShowError "Settings could not be saved. Please check your browser settings."])%list.
Proof.
  intro Hacc. unfold loadSettings, loadSettings_try, getItem. rewrite Hacc. simpl bind.
  rewrite saveSettings_fails by (unfold write_fails; cbn [storage emit]; rewrite Hacc; reflexivity).
  split; [reflexivity | split; [reflexivity | ]].
  cbn [ui emit]. rewrite <- app_assoc. reflexivity.
Qed.

Lemma loadSettings_access_denied_witness :
  let sto := {| entry := Some "{}"; access_denied := true; quota_exceeded := false |} in
  settings (constructor sto) = default_settings /\ storage (constructor sto) = sto.
Proof.
  intro sto.
  destruct (loadSettings_access_denied (initial sto) eq_refl) as (Hs & Hsto & _).
  split; [exact Hs | exact Hsto].
Defined.

(** [loadSettings] writes to the storage and shows something only through
    its [catch]: either it leaves the storage and the page as they were, or
    it is the warning followed by [saveSettings] on the settings in memory. *)
Theorem loadSettings_silent_or_catch (st : State) :
  (storage (loadSettings st) = storage st /\ ui (loadSettings st) = ui st)
  \/ loadSettings st
     = saveSettings (emit [ConsoleWarn "Failed to load settings from localStorage:"] st).
Proof.
  unfold loadSettings. destruct (loadSettings_try st) as [st' | e] eqn:Htry.
  - left. apply loadSettings_try_Ok in Htry.
    destruct Htry as [-> | (v1 & v2 & v3 & r1 & r2 & r3 & _ & _ & _ & ->)];
      split; reflexivity.
  - right. reflexivity.
Qed.

(* ================================================================= *)
(** ** More on [validateNumber] *)

(** What [validateNumber] returns is its default, or a Number that is not
    [NaN], not below [min] and not above [max]. *)
Theorem validateNumber_result (v : jsval) (d lo hi r : number) :
  validateNumber v d lo hi = Ok r ->
  r = d \/ (isNaN r = false /\ lt r lo = false /\ gt r hi = false).
Proof.
  unfold validateNumber. intro H. inv_bind H. injection H as <-.
  destruct (isNaN a) eqn:Hn; [left; reflexivity | ].
  destruct (lt a lo) eqn:Hl; [left; reflexivity | ].
  destruct (gt a hi) eqn:Hg; [left; reflexivity | ].
  right. auto.
Qed.

Lemma validateNumber_result_witness :
  of_decimal false 5 0 = lit_0_50
  \/ (isNaN (of_decimal false 5 0) = false
      /\ lt (of_decimal false 5 0) lit_0 = false
      /\ gt (of_decimal false 5 0) lit_10 = false).
Proof.
  apply (validateNumber_result (VStr "5abc") lit_0_50 lit_0 lit_10).
  vm_compute. reflexivity.
Defined.

Lemma trim_start_all_spaces (s : string) : all_spaces s = true -> trim_start s = EmptyString.
Proof.
  induction s as [ | c r IH]; [reflexivity | ].
  simpl. destruct (is_space c); [exact IH | discriminate].
Qed.

Lemma parseFloat_blank (v : jsval) : blank v = true -> parseFloat v = Ok NaN.
Proof.
  destruct v as [ | | b | x | s | items | props]; simpl; try discriminate; intro H.
  - reflexivity.
  - reflexivity.
  - destruct b; reflexivity.
  - unfold parseFloat. simpl. unfold parseFloat_str.
    rewrite (trim_start_all_spaces s H). reflexivity.
  - destruct items; [reflexivity | discriminate H].
  - unfold parseFloat. simpl ToString.
    destruct (own_property "toString" props); [discriminate H | reflexivity].
Qed.

(** [validateNumber] returns its default for every value that holds no
    number at all: [undefined] (a missing property), [null], a boolean, an
    empty or blank string, an empty array, an object without a property
    [toString]. *)
Theorem validateNumber_blank (v : jsval) (d lo hi : number) :
  blank v = true -> validateNumber v d lo hi = Ok d.
Proof.
  intro H. rewrite (validateNumber_parsed v d lo hi NaN (parseFloat_blank v H)).
  reflexivity.
Qed.

Lemma validateNumber_blank_witness :
  validateNumber (VStr "   ") lit_1_00 lit_0 lit_50 = Ok lit_1_00
  /\ validateNumber (VObj [("rate", VNum lit_1)]) lit_1_00 lit_0 lit_50 = Ok lit_1_00.
Proof.
  split; apply validateNumber_blank; reflexivity.
Defined.

(* ================================================================= *)
(** ** More on the pricing computation *)

Lemma in_range_finite (f : field) (s : Settings) :
  settings_in_range s -> is_finite (field_of f s) = true.
Proof.
  intro H. destruct (H f) as [Hlo Hhi].
  destruct (field_of f s) as [z | i | | sg m e]; try reflexivity.
  - destruct i; [discriminate Hlo | destruct f; discriminate Hhi].
  - discriminate Hlo.
Qed.

Lemma mul_zero_finite (z x : number) :
  is_zero z = true -> is_finite x = true -> is_zero (mul z x) = true.
Proof. destruct z, x; try discriminate; reflexivity. Qed.

Lemma add_zero_r (x z : number) :
  is_zero z = true -> is_zero x = false -> add x z = x.
Proof. destruct z; try discriminate. destruct x; try discriminate; reflexivity. Qed.

Lemma add_zero_zero (x z : number) :
  is_zero x = true -> is_zero z = true -> is_zero (add x z) = true.
Proof.
  destruct x as [sx | | | ], z as [sz | | | ]; try discriminate.
  destruct sx, sz; reflexivity.
Qed.

(** With settings in their ranges, an order without appliques, blank cost
    and design cost (the zeros [getFormData] puts for empty fields) costs per
    item exactly its stitch cost: the four additions of [performCalculations]
    change nothing. *)
Theorem performCalculations_stitches_only (st : State) (order : OrderInput) :
  settings_in_range (settings st) ->
  appliques order = lit_0 -> blankCost order = lit_0 -> designCost order = lit_0 ->
  let r := performCalculations st order in
  (is_zero (stitchCost r) = false -> perItemCost r = stitchCost r)
  /\ (is_zero (stitchCost r) = true -> is_zero (perItemCost r) = true).
Proof.
  intros Hin Ha Hb Hd r.
  assert (Hz1 : is_zero (appliqueCost r) = true).
  { unfold r, performCalculations. cbn [appliqueCost]. rewrite Ha.
    apply mul_zero_finite; [reflexivity | exact (in_range_finite AppliqueRate _ Hin)]. }
  assert (Hz2 : is_zero (insuranceCost r) = true).
  { unfold r, performCalculations. cbn [insuranceCost]. rewrite Hb.
    apply mul_zero_finite; [reflexivity | exact (in_range_finite InsuranceRate _ Hin)]. }
  assert (Hp : perItemCost r
               = add (add (add (add (stitchCost r) (appliqueCost r)) lit_0)
                          (insuranceCost r)) lit_0).
  { unfold r, performCalculations.
    cbn [perItemCost stitchCost appliqueCost insuranceCost]. rewrite Hb, Hd. reflexivity. }
  rewrite Hp. split; intro Hs.
  - rewrite (add_zero_r _ _ Hz1 Hs), (add_zero_r _ lit_0 eq_refl Hs),
      (add_zero_r _ _ Hz2 Hs), (add_zero_r _ lit_0 eq_refl Hs). reflexivity.
  - repeat apply add_zero_zero; try assumption; reflexivity.
Qed.

Lemma performCalculations_stitches_only_witness :
  let order := {| stitches := of_decimal false 5000 0; items := lit_1;
                  appliques := lit_0; blankCost := lit_0; designCost := lit_0 |} in
  let r := performCalculations (initial nothing_stored) order in
  perItemCost r = stitchCost r /\ Number_toString (perItemCost r) = "2.5".
Proof.
  intros order r. split; [ | vm_compute; reflexivity].
  apply (performCalculations_stitches_only (initial nothing_stored) order
           default_settings_in_range eq_refl eq_refl eq_refl).
  vm_compute. reflexivity.
Defined.

(* ================================================================= *)
(** ** The text of the settings entry, read back *)

Lemma sign_match (A : Type) (c : ascii) (t : string) (F : string -> A) (G : A) :
  match String c t with
  | String "-" r => F r
  | _ => G
  end = if Ascii.eqb c "-" then F t else G.
Proof. destruct c as [[] [] [] [] [] [] [] []]; reflexivity. Qed.

Lemma dot_char (A : Type) (c : ascii) (X Y : A) :
  match c with
  | "."%char => X
  | _ => Y
  end = if Ascii.eqb c "." then X else Y.
Proof. destruct c as [[] [] [] [] [] [] [] []]; reflexivity. Qed.

Lemma exp_char (A : Type) (c : ascii) (X Y : A) :
  match c with
  | "e"%char | "E"%char => X
  | _ => Y
  end = if Ascii.eqb c "e" || Ascii.eqb c "E" then X else Y.
Proof. destruct c as [[] [] [] [] [] [] [] []]; reflexivity. Qed.

Lemma zero_match (A : Type) (d : ascii) (t : string) (N Z B : A) :
  match String d t with
  | EmptyString => N
  | String "0" (String _ _) => Z
  | _ => B
  end = if Ascii.eqb d "0" && negb (is_empty t) then Z else B.
Proof. destruct d as [[] [] [] [] [] [] [] []]; destruct t; reflexivity. Qed.

Lemma number_token_head (s : string) (y : number) (rest : string) :
  number_token s = Some (y, rest) ->
  exists c t, s = String c t /\ (is_digit c = true \/ c = "-"%char).
Proof.
  destruct s as [ | c t]; [discriminate | ].
  intro H. exists c, t. split; [reflexivity | ].
  unfold number_token in H.
  rewrite sign_match in H.
  destruct (Ascii.eqb c "-") eqn:E; [right; apply Ascii.eqb_eq; exact E | ].
  left. simpl in H. destruct (is_digit c); [reflexivity | discriminate H].
Qed.

Lemma number_token_app (s rest : string) (y : number) :
  non_numeric_start rest ->
  number_token s = Some (y, EmptyString) ->
  number_token (s ++ rest) = Some (y, rest).
Proof.
  intros Hr H. destruct s as [ | c t]; [discriminate H | ].
  destruct rest as [ | q rest']; [contradiction | ].
  pose proof Hr as Ht. simpl in Ht.
  destruct (StrFacts.non_numeric_chars _ Ht) as (Hdot & He & HE & _ & _).
  change (String c t ++ String q rest') with (String c (t ++ String q rest')).
  unfold number_token in *.
  rewrite sign_match in H. rewrite sign_match.
  assert (Hs1 : exists neg s1,
             (if Ascii.eqb c "-" then (true, t) else (false, String c t)) = (neg, s1)
             /\ (if Ascii.eqb c "-" then (true, t ++ String q rest')
                 else (false, String c (t ++ String q rest'))) = (neg, s1 ++ String q rest')).
  { destruct (Ascii.eqb c "-"); eexists; eexists; split; reflexivity. }
  destruct Hs1 as (neg & s1 & E1 & E2). rewrite E1 in H. rewrite E2. clear E1 E2.
  rewrite (StrFacts.take_digits_app s1 _ Hr).
  destruct (take_digits s1) as [ip s2]. cbn [fst snd].
  destruct ip as [ | d ip']; [discriminate H | ].
  rewrite (zero_match _ d ip' None) in H. rewrite (zero_match _ d ip' None).
  destruct (Ascii.eqb d "0" && negb (is_empty ip')); [discriminate H | ].
  destruct s2 as [ | c2 r2].
  - change (EmptyString ++ String q rest') with (String q rest').
    cbv iota. rewrite dot_char, Hdot. cbv iota. rewrite exp_char, He, HE. cbn [orb].
    injection H as <-. reflexivity.
  - change (String c2 r2 ++ String q rest') with (String c2 (r2 ++ String q rest')).
    cbv iota in H. cbv iota. rewrite dot_char in H. rewrite dot_char.
    destruct (Ascii.eqb c2 ".").
    + rewrite (StrFacts.take_digits_app r2 _ Hr).
      destruct (take_digits r2) as [fp s3]. cbn [fst snd].
      destruct (is_empty fp); [discriminate H | ].
      destruct s3 as [ | c3 r3].
      * change (EmptyString ++ String q rest') with (String q rest').
        cbv iota. rewrite exp_char, He, HE. cbn [orb].
        injection H as <-. reflexivity.
      * change (String c3 r3 ++ String q rest') with (String c3 (r3 ++ String q rest')).
        cbv iota in H. cbv iota. rewrite exp_char in H. rewrite exp_char.
        destruct (Ascii.eqb c3 "e" || Ascii.eqb c3 "E"); [ | discriminate H].
        rewrite (StrFacts.take_sign_app r3 _ Hr).
        destruct (take_sign r3) as [eneg r4]. cbn [fst snd].
        rewrite (StrFacts.take_digits_app r4 _ Hr).
        destruct (take_digits r4) as [ed s4]. cbn [fst snd].
        destruct (is_empty ed); [discriminate H | ].
        injection H as <- ->. reflexivity.
    + rewrite exp_char in H. rewrite exp_char.
      destruct (Ascii.eqb c2 "e" || Ascii.eqb c2 "E"); [ | discriminate H].
      rewrite (StrFacts.take_sign_app r2 _ Hr).
      destruct (take_sign r2) as [eneg r4]. cbn [fst snd].
      rewrite (StrFacts.take_digits_app r4 _ Hr).
      destruct (take_digits r4) as [ed s4]. cbn [fst snd].
      destruct (is_empty ed); [discriminate H | ].
      injection H as <- ->. reflexivity.
Qed.



Lemma number_char_facts (c : ascii) :
  is_digit c = true \/ c = "-"%char ->
  Ascii.eqb c dquote = false /\ json_space c = false.
Proof.
  destruct c as [[] [] [] [] [] [] [] []]; intros [H | H];
    try discriminate H; split; reflexivity.
Qed.

Lemma value_char (A : Type) (c : ascii) (N T F Arr Obj D : A) :
  is_digit c = true \/ c = "-"%char ->
  match c with
  | "n"%char => N
  | "t"%char => T
  | "f"%char => F
  | "["%char => Arr
  | "{"%char => Obj
  | _ => D
  end = D.
Proof.
  destruct c as [[] [] [] [] [] [] [] []]; intros [H | H];
    try discriminate H; reflexivity.
Qed.

(** A number at the head of the text is the value [parse_value] reads. *)
Lemma parse_value_number (fuel : nat) (s rest : string) (x : number) :
  number_token s = Some (x, rest) ->
  parse_value (S fuel) s = Some (VNum x, rest).
Proof.
  intro H. destruct (number_token_head s x rest H) as (c & t & -> & Hc).
  destruct (number_char_facts c Hc) as [Hq _].
  cbn [parse_value]. rewrite Hq.
  rewrite (value_char _ c _ _ _ _ _ _ Hc). rewrite H. reflexivity.
Qed.

Lemma skip_ws_number (s rest t : string) (x : number) :
  number_token s = Some (x, rest) -> skip_ws (s ++ t) = s ++ t.
Proof.
  intro H. destruct (number_token_head s x rest H) as (c & r & -> & Hc).
  destruct (number_char_facts c Hc) as [_ Hs].
  cbn [append skip_ws]. rewrite Hs. reflexivity.
Qed.

Lemma append_assoc (a b c : string) : ((a ++ b) ++ c = a ++ (b ++ c))%string.
Proof. induction a as [ | x a IH]; [reflexivity | ]. simpl. rewrite IH. reflexivity. Qed.

Lemma append_nil_r (a : string) : (a ++ EmptyString = a)%string.
Proof. induction a as [ | x a IH]; [reflexivity | ]. simpl. rewrite IH. reflexivity. Qed.

Lemma quoted_app (k x : string) :
  (quoted k ++ x = String dquote (k ++ String dquote x))%string.
Proof. unfold quoted. cbn [append]. rewrite append_assoc. reflexivity. Qed.

Lemma parse_members_eq (fuel : nat) (c : ascii) (r : string) :
  parse_members (S fuel) (String c r)
  = if Ascii.eqb c dquote then
      match string_body r with
      | None => None
      | Some (k, r1) =>
          match skip_ws r1 with
          | String ":" r2 =>
              match parse_value fuel (skip_ws r2) with
              | None => None
              | Some (v, r3) =>
                  match skip_ws r3 with
                  | String "}" rest => Some ([(k, v)], rest)
                  | String "," r4 =>
                      match parse_members fuel (skip_ws r4) with
                      | Some (l, rest) => Some ((k, v) :: l, rest)
                      | None => None
                      end
                  | _ => None
                  end
              end
          | _ => None
          end
      end
    else None.
Proof. reflexivity. Qed.

Lemma parse_value_object_quoted (fuel : nat) (k x : string) :
  parse_value (S fuel) (String "{" (quoted k ++ x))
  = match parse_members fuel (quoted k ++ x) with
    | Some (l, rest) => Some (VObj l, rest)
    | None => None
    end.
Proof. rewrite quoted_app. reflexivity. Qed.

Lemma skip_ws_colon (x : string) : skip_ws (String ":" x) = String ":" x.
Proof. reflexivity. Qed.

Lemma skip_ws_comma (x : string) : skip_ws (String "," x) = String "," x.
Proof. reflexivity. Qed.

Lemma skip_ws_brace (x : string) : skip_ws (String "}" x) = String "}" x.
Proof. reflexivity. Qed.

(** One member [name : number] followed by a comma and further members. *)
Lemma parse_members_cons (fuel : nat) (k n more rest : string) (y : number)
      (l : list (string * jsval)) :
  (forall r, string_body (k ++ String dquote r) = Some (k, r)) ->
  number_token n = Some (y, EmptyString) ->
  skip_ws more = more ->
  parse_members (S fuel) more = Some (l, rest) ->
  parse_members (S (S fuel)) (quoted k ++ ":" ++ n ++ "," ++ more)
  = Some ((k, VNum y) :: l, rest).
Proof.
  intros Hk Hn Hws Hmore. rewrite quoted_app.
  rewrite parse_members_eq, Ascii.eqb_refl, Hk.
  change (":" ++ n ++ "," ++ more)%string with (String ":" (n ++ String "," more)).
  rewrite skip_ws_colon. cbv match.
  rewrite (skip_ws_number n EmptyString _ y Hn).
  rewrite (parse_value_number fuel _ _ y
             (number_token_app n (String "," more) y eq_refl Hn)).
  rewrite skip_ws_comma. cbv match.
  rewrite Hws, Hmore. reflexivity.
Qed.

(** The last member, followed by the closing brace. *)
Lemma parse_members_last (fuel : nat) (k n : string) (y : number) :
  (forall r, string_body (k ++ String dquote r) = Some (k, r)) ->
  number_token n = Some (y, EmptyString) ->
  parse_members (S (S fuel)) (quoted k ++ ":" ++ n ++ "}")
  = Some ([(k, VNum y)], EmptyString).
Proof.
  intros Hk Hn. rewrite quoted_app.
  rewrite parse_members_eq, Ascii.eqb_refl, Hk.
  change (":" ++ n ++ "}")%string with (String ":" (n ++ "}")).
  rewrite skip_ws_colon. cbv match.
  rewrite (skip_ws_number n EmptyString _ y Hn).
  rewrite (parse_value_number fuel _ _ y
             (number_token_app n "}" y eq_refl Hn)).
  rewrite skip_ws_brace. reflexivity.
Qed.

Lemma quoted_skip_ws (k x : string) : skip_ws (quoted k ++ x) = (quoted k ++ x)%string.
Proof. rewrite quoted_app. reflexivity. Qed.

(** [JSON.parse] on the text of a record of three numbers. *)
Lemma JSON_parse_record (n1 n2 n3 : string) (y1 y2 y3 : number) :
  number_token n1 = Some (y1, EmptyString) ->
  number_token n2 = Some (y2, EmptyString) ->
  number_token n3 = Some (y3, EmptyString) ->
  JSON_parse (record_text n1 n2 n3)
  = Ok (VObj [("stitchRate", VNum y1); ("appliqueRate", VNum y2);
              ("insuranceRate", VNum y3)]).
Proof.
  intros H1 H2 H3. unfold JSON_parse.
  assert (Hfuel : exists f, 2 * length (record_text n1 n2 n3) + 2 = S (S (S (S (S f))))).
  { unfold record_text. cbn [append length]. rewrite quoted_app. cbn [length].
    eexists. rewrite Nat.add_comm. cbn [Nat.add Nat.mul].
    rewrite <- !plus_n_Sm. reflexivity. }
  destruct Hfuel as [f ->].
  assert (Hm : parse_members (S (S (S (S f))))
                 (quoted "stitchRate" ++ ":" ++ n1 ++ ","
                    ++ quoted "appliqueRate" ++ ":" ++ n2 ++ ","
                    ++ quoted "insuranceRate" ++ ":" ++ n3 ++ "}")
               = Some ([("stitchRate", VNum y1); ("appliqueRate", VNum y2);
                        ("insuranceRate", VNum y3)], EmptyString)).
  { apply parse_members_cons; [intro r; reflexivity | exact H1 | apply quoted_skip_ws | ].
    apply parse_members_cons; [intro r; reflexivity | exact H2 | apply quoted_skip_ws | ].
    apply parse_members_last; [intro r; reflexivity | exact H3]. }
  unfold record_text.
  change ("{" ++ ?x)%string with (String "{" x).
  change (skip_ws (String "{" ?x)) with (String "{" x).
  rewrite parse_value_object_quoted, Hm. reflexivity.
Qed.

(** The text [saveSettings] writes for settings that are finite Numbers. *)
Lemma JSON_stringify_settings (s : Settings) :
  (forall f, is_finite (field_of f s) = true) ->
  JSON_stringify (settings_members s)
  = record_text (Number_toString (stitchRate s))
                (Number_toString (appliqueRate s))
                (Number_toString (insuranceRate s)).
Proof.
  intro Hfin.
  pose proof (Hfin StitchRate) as H1.
  pose proof (Hfin AppliqueRate) as H2.
  pose proof (Hfin InsuranceRate) as H3.
  simpl in H1, H2, H3.
  unfold JSON_stringify, settings_members, stringify_members, stringify_number, record_text.
  rewrite H1, H2, H3.
  change (EmptyString ++ ?x)%string with x.
  rewrite !append_assoc. reflexivity.
Qed.

Lemma number_round_trips_token (x : number) :
  number_round_trips x = true ->
  exists y, number_token (Number_toString x) = Some (y, EmptyString)
            /\ same_number (parseFloat_str (Number_toString y)) x = true.
Proof.
  unfold number_round_trips.
  destruct (number_token (Number_toString x)) as [[y rest] | ]; [ | discriminate].
  intro H. apply andb_prop in H. destruct H as [He Hs].
  destruct rest; [ | discriminate He].
  exists y. split; [reflexivity | exact Hs].
Qed.

(** The condition [reads_back] follows from the round trip of each of the
    three Numbers: the keys and the punctuation of the text are the
    code's. *)
Lemma reads_back_of_numbers (s : Settings) :
  settings_in_range s ->
  (forall f, number_round_trips (field_of f s) = true) ->
  reads_back s = true.
Proof.
  intros Hin Hrt.
  destruct (number_round_trips_token _ (Hrt StitchRate)) as (y1 & T1 & S1).
  destruct (number_round_trips_token _ (Hrt AppliqueRate)) as (y2 & T2 & S2).
  destruct (number_round_trips_token _ (Hrt InsuranceRate)) as (y3 & T3 & S3).
  simpl in T1, T2, T3, S1, S2, S3.
  unfold reads_back.
  rewrite (JSON_stringify_settings s (fun f => in_range_finite f s Hin)).
  rewrite (JSON_parse_record _ _ _ y1 y2 y3 T1 T2 T3).
  assert (R1 : reads_as (VObj [("stitchRate", VNum y1); ("appliqueRate", VNum y2);
                               ("insuranceRate", VNum y3)]) "stitchRate" (stitchRate s)
               = true) by exact S1.
  assert (R2 : reads_as (VObj [("stitchRate", VNum y1); ("appliqueRate", VNum y2);
                               ("insuranceRate", VNum y3)]) "appliqueRate" (appliqueRate s)
               = true) by exact S2.
  assert (R3 : reads_as (VObj [("stitchRate", VNum y1); ("appliqueRate", VNum y2);
                               ("insuranceRate", VNum y3)]) "insuranceRate" (insuranceRate s)
               = true) by exact S3.
  rewrite R1, R2, R3. reflexivity.
Qed.

Lemma same_number_nonzero (y x : number) :
  same_number y x = true -> is_zero x = false -> y = x.
Proof.
  intros Hs Hz. destruct (same_number_cases y x Hs) as [H | [_ H]]; [exact H | ].
  rewrite H in Hz. discriminate Hz.
Qed.

Lemma negative_zero_counterexample :
  let sto := stored (record_text (quoted "-0") "1.5" "7") in
  stitchRate (settings (constructor sto)) = S754_zero true
  /\ entry (storage (saveSettings (constructor sto)))
     = Some (record_text "0" "1.5" "0.1")
  /\ stitchRate (settings (constructor (storage (saveSettings (constructor sto)))))
     = S754_zero false
  /\ ~ identical_reload sto.
Proof.
  intro sto.
  split; [vm_compute; reflexivity | ].
  split; [vm_compute; reflexivity | ].
  split; [vm_compute; reflexivity | ].
  unfold identical_reload. intro H.
  apply (f_equal stitchRate) in H.
  vm_compute in H. discriminate H.
Qed.

(** C5, as the code has it.  From every storage state: load, save the
    settings just loaded, load again.  When the save cannot write, the
    storage is as before and the second load repeats the first.  When it
    writes, and each rate loaded survives the round trip of its text
    ([number_round_trips]: Number::toString gives one JSON number, and the
    Number read from it prints and parses back to the rate), the second
    load ends with each rate [===] to what it was, and identical to it
    unless it is a zero: the rate -0 comes back as +0. *)
Theorem load_save_load (sto : Storage) :
  let st1 := constructor sto in
  let st2 := saveSettings st1 in
  let st3 := constructor (storage st2) in
  (write_fails sto = false ->
   forall f, number_round_trips (field_of f (settings st1)) = true) ->
  (write_fails sto = true -> st3 = st1)
  /\ same_settings (settings st3) (settings st1)
  /\ (forall f, is_zero (field_of f (settings st1)) = false ->
                field_of f (settings st3) = field_of f (settings st1)).
Proof.
  intros st1 st2 st3 Hrt.
  pose proof (loadSettings_in_range (initial sto) default_settings_in_range) as Hin.
  change (loadSettings (initial sto)) with st1 in Hin.
  destruct (loadSettings_flags (initial sto)) as [Fa Fq].
  change (loadSettings (initial sto)) with st1 in Fa, Fq. simpl in Fa, Fq.
  assert (Hfail : write_fails sto = true -> st3 = st1).
  { intro Hw.
    assert (H1 : storage st1 = sto)
      by (apply (loadSettings_storage_write_fails (initial sto)); exact Hw).
    assert (H2 : storage st2 = sto).
    { unfold st2. rewrite saveSettings_storage, H1.
      unfold write_fails in Hw. rewrite Hw. reflexivity. }
    unfold st3. rewrite H2. reflexivity. }
  assert (Hsame : same_settings (settings st3) (settings st1)).
  { destruct (write_fails sto) eqn:Hw.
    - rewrite (Hfail eq_refl). intro f. apply in_range_same. exact Hin.
    - unfold write_fails in Hw. apply orb_false_elim in Hw. destruct Hw as [Ha Hq].
      apply reload_saved.
      + unfold st2. rewrite saveSettings_storage, Fa, Fq, Ha, Hq. reflexivity.
      + unfold st2. rewrite saveSettings_storage, Fa, Fq, Ha, Hq. reflexivity.
      + exact Hin.
      + apply reads_back_of_numbers; [exact Hin | exact (Hrt eq_refl)]. }
  split; [exact Hfail | split; [exact Hsame | ]].
  intros f Hz. apply same_number_nonzero; [exact (Hsame f) | exact Hz].
Qed.

Lemma load_save_load_witness :
  let sto := stored (record_text (quoted "-0") "1.5" "7") in
  same_settings
    (settings (constructor (storage (saveSettings (constructor sto)))))
    (settings (constructor sto))
  /\ appliqueRate (settings (constructor (storage (saveSettings (constructor sto)))))
     = appliqueRate (settings (constructor sto)).
Proof.
  intro sto.
  assert (Hrt : write_fails sto = false ->
                forall f, number_round_trips (field_of f (settings (constructor sto))) = true)
    by (intros _ f; destruct f; vm_compute; reflexivity).
  destruct (load_save_load sto Hrt) as (_ & Hsame & Hid).
  split; [exact Hsame | ].
  apply (Hid AppliqueRate). vm_compute. reflexivity.
Defined.

End CalcFacts.
